(** * MCQ exam platform: session lifecycle and scoring engine

    A shallow embedding of the candidate-facing exam routes
    ([routes/exam.js]) over a relational store ([database/db.js]),
    together with the two operator endpoints of [routes/api.js] that
    set the flags the properties below depend on.

    Modelling conventions.
    - A table is the list of its rows in rowid order.  [db.get] returns
      the first row a query selects, [db.all] all of them, an [UPDATE]
      rewrites every selected row in place and an [INSERT] appends a row
      whose id comes from the table's AUTOINCREMENT sequence.
    - INTEGER columns are [Z]; flags keep their stored integer so that
      the difference between the SQL test [= 1], JavaScript truthiness
      and the strict comparison [=== 1] stays visible.
    - REAL values (negative marking, marks obtained, score) are exact
      rationals [Q]; a column that is NULL until it is written is an
      [option].  Where a route computes with them in JavaScript (the
      percentage) they are numbers of the IEEE 754 binary64 format,
      and each operation rounds its exact result to that format.
    - [datetime('now')] and [uuidv4()] are inputs of the handler that
      calls them.  A timestamp is the instant it denotes, as a number of
      seconds: the text form SQLite stores is fixed width, so the text
      order used by ORDER BY is the order of the instants.
    - Strings are sequences of ASCII characters. *)

From Stdlib Require Import ZArith QArith Qround Qminmax Qabs Qpower Lqa.
From Stdlib Require Import SpecFloat.
From Stdlib Require Import List String Ascii Bool Lia.
From Stdlib Require Import Permutation Sorted.
Import ListNotations.

Open Scope Z_scope.

(** ** JavaScript values and library functions used by the routes *)

Module JS.

(** Code point of a character. *)
Definition code (c : ascii) : N := N_of_ascii c.

(** The characters of the class [\s], which are also those [trim] strips. *)
Definition is_space (c : ascii) : bool :=
  let n := code c in
  (N.leb 9 n && N.leb n 13) || N.eqb n 32.

Definition toUpperCase_char (c : ascii) : ascii :=
  let n := code c in
  if N.leb 97 n && N.leb n 122 then ascii_of_N (n - 32) else c.

Definition toLowerCase_char (c : ascii) : ascii :=
  let n := code c in
  if N.leb 65 n && N.leb n 90 then ascii_of_N (n + 32) else c.

Fixpoint map_string (f : ascii -> ascii) (s : string) : string :=
  match s with
  | EmptyString => EmptyString
  | String c s' => String (f c) (map_string f s')
  end.

Definition toUpperCase : string -> string := map_string toUpperCase_char.
Definition toLowerCase : string -> string := map_string toLowerCase_char.

Fixpoint trimStart (s : string) : string :=
  match s with
  | EmptyString => EmptyString
  | String c s' => if is_space c then trimStart s' else s
  end.

Fixpoint trimEnd (s : string) : string :=
  match s with
  | EmptyString => EmptyString
  | String c s' =>
      match trimEnd s' with
      | EmptyString => if is_space c then EmptyString else String c EmptyString
      | t => String c t
      end
  end.

Definition trim (s : string) : string := trimEnd (trimStart s).

(** Truthiness of a string: only the empty string is falsy. *)
Definition truthy_string (s : string) : bool :=
  match s with EmptyString => false | _ => true end.

(** Truthiness of a value that is a string, [null] or [undefined]. *)
Definition truthy_opt (o : option string) : bool :=
  match o with Some s => truthy_string s | None => false end.

(** Truthiness of a number. *)
Definition truthy_Z (n : Z) : bool := negb (n =? 0).

(** [x || 0] on numbers. *)
Definition or0_Z (n : option Z) : Z :=
  match n with Some v => v | None => 0 end.

Definition or0_Q (x : Q) : Q := if Qeq_bool x 0 then 0%Q else x.

(** A number read from a nullable column, in arithmetic: [null] is 0. *)
Definition num (o : option Q) : Q :=
  match o with Some x => x | None => 0%Q end.

(** [Math.max(0, x)]. *)
Definition Math_max0 (x : Q) : Q := Qmax 0 x.

(** *** The regular expression [/^[^\s@]+@[^\s@]+\.[^\s@]+$/]

    A backtracking matcher in continuation style: [plus_class k] is
    [[^\s@]+] followed by [k], [lit ch k] is the literal [ch] followed
    by [k], and [eos] is [$]. *)

Definition in_class (c : ascii) : bool :=
  negb (is_space c || Ascii.eqb c "@").

Fixpoint plus_class (k : string -> bool) (s : string) : bool :=
  match s with
  | EmptyString => false
  | String c s' => in_class c && (k s' || plus_class k s')
  end.

Definition lit (ch : ascii) (k : string -> bool) (s : string) : bool :=
  match s with
  | EmptyString => false
  | String c s' => Ascii.eqb c ch && k s'
  end.

Definition eos (s : string) : bool :=
  match s with EmptyString => true | _ => false end.

Definition emailRegex_test (email : string) : bool :=
  plus_class (lit "@" (plus_class (lit "." (plus_class eos)))) email.

(** *** Numbers

    A JavaScript number is a value of the IEEE 754 binary64 format: a
    sign with a magnitude, an infinity, or NaN.  A finite magnitude is
    an integer multiple of a power of two with at most 53 significant
    bits, between the subnormal unit [2^-1074] and [2^1024].  An
    arithmetic operation yields its exact result rounded to the nearest
    value of the format, to the one with the even significand when two
    are equally near, and to an infinity from [2^1024] on. *)

Inductive number :=
| Finite (negative : bool) (magnitude : Q)
| Infinity (negative : bool)
| NaN.

(** The integer part of the binary logarithm of a positive rational. *)
Definition log2_floor (x : Q) : Z :=
  let k := Z.log2 (Qnum x) - Z.log2 (Zpos (Qden x)) in
  if Qle_bool (2 ^ k) x then k else k - 1.

(** Exponent of the unit in the last place at magnitude [x]: 53
    significant bits, and no unit below [2^-1074]. *)
Definition ulp_exponent (x : Q) : Z := Z.max (-1074) (log2_floor x - 52).

(** The nearest integer, the even one of two equally near. *)
Definition nearest_even (y : Q) : Z :=
  let f := Qfloor y in
  match (y - inject_Z f ?= 1 # 2)%Q with
  | Lt => f
  | Gt => f + 1
  | Eq => if Z.even f then f else f + 1
  end.

(** Rounding of an exact magnitude to the format; [None] is overflow. *)
Definition round_magnitude (x : Q) : option Q :=
  let e := ulp_exponent x in
  let y := Qred (inject_Z (nearest_even (x / 2 ^ e)) * 2 ^ e) in
  if Qle_bool (2 ^ 1024) y then None else Some y.

Definition round (negative : bool) (x : Q) : number :=
  match round_magnitude x with
  | Some y => Finite negative y
  | None => Infinity negative
  end.

(** The number a stored value becomes when a route reads it. *)
Definition of_Q (x : Q) : number := round (negb (Qle_bool 0 x)) (Qabs x).

Definition of_Z (n : Z) : number := of_Q (inject_Z n).

(** [a / b]. *)
Definition divide (a b : number) : number :=
  match a, b with
  | NaN, _ | _, NaN => NaN
  | Infinity _, Infinity _ => NaN
  | Infinity s, Finite t _ => Infinity (xorb s t)
  | Finite s _, Infinity t => Finite (xorb s t) 0
  | Finite s x, Finite t y =>
      if Qeq_bool y 0
      then if Qeq_bool x 0 then NaN else Infinity (xorb s t)
      else round (xorb s t) (x / y)
  end.

(** [a * b]. *)
Definition multiply (a b : number) : number :=
  match a, b with
  | NaN, _ | _, NaN => NaN
  | Infinity s, Infinity t => Infinity (xorb s t)
  | Infinity s, Finite t y =>
      if Qeq_bool y 0 then NaN else Infinity (xorb s t)
  | Finite s x, Infinity t =>
      if Qeq_bool x 0 then NaN else Infinity (xorb s t)
  | Finite s x, Finite t y => round (xorb s t) (x * y)
  end.

(** The value of the format that the standard library's specification
    of IEEE 754 arithmetic ([SpecFloat]) denotes. *)
Definition of_spec_float (f : spec_float) : number :=
  match f with
  | S754_zero s => Finite s 0
  | S754_infinity s => Infinity s
  | S754_nan => NaN
  | S754_finite s m e => Finite s (Qred (inject_Z (Zpos m) * 2 ^ e))
  end.

Definition number_eqb (a b : number) : bool :=
  match a, b with
  | Finite s x, Finite t y => Bool.eqb s t && Qeq_bool x y
  | Infinity s, Infinity t => Bool.eqb s t
  | NaN, NaN => true
  | _, _ => false
  end.

(** *** [Number.prototype.toFixed(2)]

    For a finite number of magnitude below [10^21] the digits printed
    are those of the integer [n] for which [n / 100] is nearest to the
    magnitude, the larger one on a tie, after the sign.  The result is
    that signed count of hundredths.  For any other number [toFixed]
    prints what [String] prints, which is not in this notation: that is
    [None]. *)

Definition toFixed2 (x : number) : option Z :=
  match x with
  | Finite s m =>
      if Qle_bool (10 ^ 21) m then None
      else let n := Qfloor (m * 100 + (1 # 2)) in
           Some (if s then - n else n)
  | _ => None
  end.

End JS.

(** ** The store: tables of [database/db.js] *)

Definition datetime := Z.

(** Table [exams]. *)
Module Exam.
Record t := mk {
  id : Z;
  title : string;
  exam_code : string;
  duration_minutes : Z;
  negative_marking : Q;
  result_mode : string;
  allow_back_navigation : Z;
  shuffle_questions : Z;
  prevent_duplicate_attempts : Z;
  is_active : Z;
  results_published : Z
}.
End Exam.

(** Table [questions]; the question text and the four option texts play
    no part in session handling and are left out. *)
Module Question.
Record t := mk {
  id : Z;
  exam_id : Z;
  correct_option : string;
  marks : Z;
  question_order : Z
}.
End Question.

(** Table [candidates]: one row per session. *)
Module Candidate.
Record t := mk {
  id : Z;
  name : string;
  email : string;
  exam_id : Z;
  session_token : string;
  start_time : datetime;
  end_time : option datetime;
  score : option Q;
  total_marks : Z;
  is_submitted : Z
}.
End Candidate.

(** Table [responses]. *)
Module Response.
Record t := mk {
  id : Z;
  candidate_id : Z;
  question_id : Z;
  selected_option : option string;
  is_correct : Z;
  marks_obtained : Q;
  answered_at : datetime
}.
End Response.

(** The database: the four tables and, for the two tables the exam
    routes insert into, the AUTOINCREMENT sequence (the largest rowid
    ever handed out). *)
Record database := mkdb {
  exams : list Exam.t;
  questions : list Question.t;
  candidates : list Candidate.t;
  responses : list Response.t;
  seq_candidates : Z;
  seq_responses : Z
}.

(** [db.get]: the first selected row, or [null]. *)
Definition db_get {A : Type} (where_ : A -> bool) (table : list A) : option A :=
  find where_ table.

(** [db.all]: every selected row, in table order. *)
Definition db_all {A : Type} (where_ : A -> bool) (table : list A) : list A :=
  filter where_ table.

(** [UPDATE ... SET ... WHERE ...]. *)
Definition db_update {A : Type} (where_ : A -> bool) (set : A -> A)
  (table : list A) : list A :=
  map (fun row => if where_ row then set row else row) table.

(** The rowid an AUTOINCREMENT table gives its next row: one more than
    the largest rowid ever used. *)
Definition next_rowid (seq : Z) (ids : list Z) : Z :=
  Z.max seq (fold_right Z.max 0 ids) + 1.

(** [SUM(col)]: NULL over no rows. *)
Definition SUM_Z (xs : list Z) : option Z :=
  match xs with
  | [] => None
  | x :: rest => Some (fold_left Z.add rest x)
  end.

Definition SUM_Q (xs : list Q) : option Q :=
  match xs with
  | [] => None
  | x :: rest => Some (fold_left Qplus rest x)
  end.

Definition COALESCE (o : option Q) (d : Q) : Q :=
  match o with Some x => x | None => d end.

(** The unique index [idx_responses_unique] on
    [responses(candidate_id, question_id)]. *)
Definition response_key (r : Response.t) : Z * Z :=
  (Response.candidate_id r, Response.question_id r).

Definition idx_responses_unique (db : database) : Prop :=
  NoDup (map response_key (responses db)).

(** The UNIQUE constraint on [exams.exam_code]. *)
Definition exam_code_unique (db : database) : Prop :=
  NoDup (map Exam.exam_code (exams db)).

(** ** The browser session kept by express-session *)

Record session := mksession {
  candidateId : option Z;
  sessionToken : option string
}.

(** [!candidateId]: an absent id and 0 are falsy. *)
Definition session_candidate (s : session) : option Z :=
  match candidateId s with
  | Some cid => if JS.truthy_Z cid then Some cid else None
  | None => None
  end.

(** ** [POST /start] *)

Module StartReq.
Record body := mk {
  name : string;
  email : string;
  exam_code : string
}.
End StartReq.

Module StartRes.
Record t := mk {
  sessionToken : string;
  examTitle : string;
  examCode : string;
  duration : Z;
  allowBackNavigation : Z;
  resultMode : string;
  startTime : datetime
}.
End StartRes.

Inductive start_response :=
| StartFieldsRequired   (* 400 'Name, email and exam code are required' *)
| StartInvalidEmail     (* 400 'Please enter a valid email address' *)
| ExamNotFound          (* 404 'Invalid exam code or exam is not active' *)
| DuplicateAttempt      (* 400 'You have already taken this exam' *)
| StartCreateFailed     (* 500 'Failed to create session. Please try again.' *)
| StartServerError      (* 500 'Server error. Please try again.' *)
| StartOk (r : StartRes.t).

(** The key sessions are looked up by: [email.trim().toLowerCase()]. *)
Definition email_key (email : string) : string :=
  JS.toLowerCase (JS.trim email).

(** [WHERE exam_code = ? AND is_active = 1]. *)
Definition active_exam_with_code (code : string) (e : Exam.t) : bool :=
  String.eqb (Exam.exam_code e) code && (Exam.is_active e =? 1).

(** [WHERE exam_id = ? AND email = ? AND is_submitted = ?]. *)
Definition session_of (exam_id : Z) (email : string) (submitted : Z)
  (c : Candidate.t) : bool :=
  (Candidate.exam_id c =? exam_id)
  && String.eqb (Candidate.email c) email
  && (Candidate.is_submitted c =? submitted).

Definition with_token (token : string) (c : Candidate.t) : bool :=
  String.eqb (Candidate.session_token c) token.

(** [SELECT SUM(marks) as total FROM questions WHERE exam_id = ?]. *)
Definition sum_marks (db : database) (exam_id : Z) : option Z :=
  SUM_Z (map Question.marks
           (db_all (fun q => Question.exam_id q =? exam_id) (questions db))).

(** [INSERT INTO candidates (name, email, exam_id, session_token,
    start_time, total_marks)]: the other columns take their defaults;
    the UNIQUE constraint on [session_token] makes the statement throw,
    which is [None]. *)
Definition insert_candidate (db : database) (name email : string)
  (exam_id : Z) (token : string) (now : datetime) (total : Z)
  : option database :=
  if existsb (with_token token) (candidates db) then None
  else
    let rowid :=
      next_rowid (seq_candidates db) (map Candidate.id (candidates db)) in
    Some {| exams := exams db;
            questions := questions db;
            candidates :=
              candidates db ++
              [ {| Candidate.id := rowid;
                   Candidate.name := name;
                   Candidate.email := email;
                   Candidate.exam_id := exam_id;
                   Candidate.session_token := token;
                   Candidate.start_time := now;
                   Candidate.end_time := None;
                   Candidate.score := None;
                   Candidate.total_marks := total;
                   Candidate.is_submitted := 0 |} ];
            responses := responses db;
            seq_candidates := rowid;
            seq_responses := seq_responses db |}.

(** The tail of the handler once [candidate] and [sessionToken] are
    known: store them in the browser session and answer. *)
Definition start_respond (db : database) (exam : Exam.t)
  (candidate : Candidate.t) (token : string)
  : database * session * start_response :=
  (db,
   {| candidateId := Some (Candidate.id candidate);
      sessionToken := Some token |},
   StartOk {| StartRes.sessionToken := token;
              StartRes.examTitle := Exam.title exam;
              StartRes.examCode := Exam.exam_code exam;
              StartRes.duration := Exam.duration_minutes exam;
              StartRes.allowBackNavigation := Exam.allow_back_navigation exam;
              StartRes.resultMode := Exam.result_mode exam;
              StartRes.startTime := Candidate.start_time candidate |}).

(** The duplicate check: when the exam's flag is truthy, the submitted
    session stored for the (exam, email key) pair, if any. *)
Definition existingCandidate (db : database) (exam : Exam.t) (key : string)
  : option Candidate.t :=
  if JS.truthy_Z (Exam.prevent_duplicate_attempts exam)
  then db_get (session_of (Exam.id exam) key 1) (candidates db)
  else None.

Definition start (db : database) (sess : session) (body : StartReq.body)
  (uuid : string) (now : datetime) : database * session * start_response :=
  let name := StartReq.name body in
  let email := StartReq.email body in
  let exam_code := StartReq.exam_code body in
  if negb (JS.truthy_string name) || negb (JS.truthy_string email)
     || negb (JS.truthy_string exam_code)
  then (db, sess, StartFieldsRequired)
  else if negb (JS.emailRegex_test email) then (db, sess, StartInvalidEmail)
  else
    match db_get (active_exam_with_code (JS.toUpperCase exam_code)) (exams db) with
    | None => (db, sess, ExamNotFound)
    | Some exam =>
        match existingCandidate db exam (email_key email) with
        | Some _ => (db, sess, DuplicateAttempt)
        | None =>
            match db_get (session_of (Exam.id exam) (email_key email) 0)
                         (candidates db) with
            | Some ongoingSession =>
                start_respond db exam ongoingSession
                  (Candidate.session_token ongoingSession)
            | None =>
                let totalMarks := JS.or0_Z (sum_marks db (Exam.id exam)) in
                match insert_candidate db (JS.trim name) (email_key email)
                        (Exam.id exam) uuid now totalMarks with
                | None => (db, sess, StartServerError)
                | Some db' =>
                    match db_get (with_token uuid) (candidates db') with
                    | None => (db', sess, StartCreateFailed)
                    | Some candidate => start_respond db' exam candidate uuid
                    end
                end
            end
        end
    end.

(** ** [POST /answer] *)

Module AnswerReq.
Record body := mk {
  questionId : Z;
  selectedOption : option string
}.
End AnswerReq.

Inductive answer_response :=
| AnswerSessionExpired   (* 401 'Session expired' *)
| AnswerInvalidSession   (* 400 'Invalid session or exam already submitted' *)
| InvalidQuestion        (* 400 'Invalid question' *)
| AnswerServerError      (* 500 'Failed to save answer' *)
| AnswerOk.

(** [selectedOption && selectedOption.toUpperCase() === question.correct_option],
    as the truth value the handler branches on. *)
Definition isCorrect (selectedOption : option string) (question : Question.t)
  : bool :=
  match selectedOption with
  | Some s =>
      JS.truthy_string s
      && String.eqb (JS.toUpperCase s) (Question.correct_option question)
  | None => false
  end.

(** [exam.negative_marking > 0]. *)
Definition gt0 (x : Q) : bool := negb (Qle_bool x 0).

(** The marks of one answer.  [exam] is what [db.get] returned for the
    session's exam; reading [negative_marking] off [null] throws, which
    is [None]. *)
Definition marksObtained (selectedOption : option string)
  (question : Question.t) (exam : option Exam.t) : option Q :=
  if JS.truthy_opt selectedOption then
    if isCorrect selectedOption question
    then Some (inject_Z (Question.marks question))
    else
      match exam with
      | None => None
      | Some e =>
          if gt0 (Exam.negative_marking e)
          then Some (- Exam.negative_marking e)%Q
          else Some 0%Q
      end
  else Some 0%Q.

(** [WHERE id = ? AND is_submitted = 0] on [candidates]. *)
Definition unsubmitted_with_id (cid : Z) (c : Candidate.t) : bool :=
  (Candidate.id c =? cid) && (Candidate.is_submitted c =? 0).

(** [WHERE id = ? AND exam_id = ?] on [questions]. *)
Definition question_in (qid exam_id : Z) (q : Question.t) : bool :=
  (Question.id q =? qid) && (Question.exam_id q =? exam_id).

(** [WHERE id = ?] on [exams]. *)
Definition exam_with_id (id : Z) (e : Exam.t) : bool := Exam.id e =? id.

(** [WHERE candidate_id = ? AND question_id = ?]. *)
Definition response_of (cid qid : Z) (r : Response.t) : bool :=
  (Response.candidate_id r =? cid) && (Response.question_id r =? qid).

(** [selectedOption || null]. *)
Definition or_null (selectedOption : option string) : option string :=
  if JS.truthy_opt selectedOption then selectedOption else None.

Definition with_responses (db : database) (rs : list Response.t) (seq : Z)
  : database :=
  {| exams := exams db;
     questions := questions db;
     candidates := candidates db;
     responses := rs;
     seq_candidates := seq_candidates db;
     seq_responses := seq |}.

(** The upsert of the handler: [UPDATE responses SET selected_option,
    is_correct, marks_obtained, answered_at = datetime('now')] when a
    row exists for the pair, else [INSERT INTO responses (candidate_id,
    question_id, selected_option, is_correct, marks_obtained)], where
    [answered_at] defaults to the current time. *)
Definition save_response (db : database) (cid questionId : Z)
  (selected : option string) (correct : Z) (marks : Q) (now : datetime)
  : database :=
  match db_get (response_of cid questionId) (responses db) with
  | Some _ =>
      with_responses db
        (db_update (response_of cid questionId)
           (fun r =>
              {| Response.id := Response.id r;
                 Response.candidate_id := Response.candidate_id r;
                 Response.question_id := Response.question_id r;
                 Response.selected_option := selected;
                 Response.is_correct := correct;
                 Response.marks_obtained := marks;
                 Response.answered_at := now |})
           (responses db))
        (seq_responses db)
  | None =>
      let rowid :=
        next_rowid (seq_responses db) (map Response.id (responses db)) in
      with_responses db
        (responses db ++
         [ {| Response.id := rowid;
              Response.candidate_id := cid;
              Response.question_id := questionId;
              Response.selected_option := selected;
              Response.is_correct := correct;
              Response.marks_obtained := marks;
              Response.answered_at := now |} ])
        rowid
  end.

Definition answer (db : database) (sess : session) (body : AnswerReq.body)
  (now : datetime) : database * answer_response :=
  let questionId := AnswerReq.questionId body in
  let selectedOption := AnswerReq.selectedOption body in
  match session_candidate sess with
  | None => (db, AnswerSessionExpired)
  | Some cid =>
      match db_get (unsubmitted_with_id cid) (candidates db) with
      | None => (db, AnswerInvalidSession)
      | Some candidate =>
          match db_get (question_in questionId (Candidate.exam_id candidate))
                       (questions db) with
          | None => (db, InvalidQuestion)
          | Some question =>
              let exam :=
                db_get (exam_with_id (Candidate.exam_id candidate)) (exams db) in
              match marksObtained selectedOption question exam with
              | None => (db, AnswerServerError)
              | Some marks =>
                  (save_response db cid questionId (or_null selectedOption)
                     (if isCorrect selectedOption question then 1 else 0)
                     marks now,
                   AnswerOk)
              end
          end
      end
  end.

(** ** [POST /submit] *)

Inductive submit_response :=
| SubmitSessionExpired   (* 401 'Session expired' *)
| SubmitInvalidSession   (* 400 'Invalid session or exam already submitted' *)
| SubmitOk.              (* 'Exam submitted successfully' *)

(** [SELECT COALESCE(SUM(marks_obtained), 0) as total_score
     FROM responses WHERE candidate_id = ?]. *)
Definition total_score (db : database) (cid : Z) : Q :=
  COALESCE
    (SUM_Q (map Response.marks_obtained
              (db_all (fun r => Response.candidate_id r =? cid) (responses db))))
    0.

Definition with_candidates (db : database) (cs : list Candidate.t) : database :=
  {| exams := exams db;
     questions := questions db;
     candidates := cs;
     responses := responses db;
     seq_candidates := seq_candidates db;
     seq_responses := seq_responses db |}.

Definition submit (db : database) (sess : session) (now : datetime)
  : database * session * submit_response :=
  match session_candidate sess with
  | None => (db, sess, SubmitSessionExpired)
  | Some cid =>
      match db_get (unsubmitted_with_id cid) (candidates db) with
      | None => (db, sess, SubmitInvalidSession)
      | Some _ =>
          let score := JS.Math_max0 (JS.or0_Q (total_score db cid)) in
          (with_candidates db
             (db_update (fun c => Candidate.id c =? cid)
                (fun c =>
                   {| Candidate.id := Candidate.id c;
                      Candidate.name := Candidate.name c;
                      Candidate.email := Candidate.email c;
                      Candidate.exam_id := Candidate.exam_id c;
                      Candidate.session_token := Candidate.session_token c;
                      Candidate.start_time := Candidate.start_time c;
                      Candidate.end_time := Some now;
                      Candidate.score := Some score;
                      Candidate.total_marks := Candidate.total_marks c;
                      Candidate.is_submitted := 1 |})
                (candidates db)),
           {| candidateId := None; sessionToken := None |},
           SubmitOk)
      end
  end.

(** ** Percentage shown with a result or a leaderboard entry *)

(** What the [percentage] field holds: the string [toFixed(2)] printed,
    kept as its count of hundredths (or as the number it prints in
    another notation), or the number 0. *)
Inductive percentage :=
| Fixed2 (hundredths : Z)
| NumberString (x : JS.number)
| Number0.

(** [total_marks > 0 ? ((score / total_marks) * 100).toFixed(2) : 0]. *)
Definition percentage_of (score : option Q) (total_marks : Z) : percentage :=
  if 0 <? total_marks
  then let x := JS.multiply
                  (JS.divide (JS.of_Q (JS.num score)) (JS.of_Z total_marks))
                  (JS.of_Z 100) in
       match JS.toFixed2 x with
       | Some h => Fixed2 h
       | None => NumberString x
       end
  else Number0.

(** [(score / total_marks) * 100] for the score [m * 2^e], once with the
    arithmetic above and once with the standard library's specification
    of binary64 division and multiplication. *)
Definition SpecFloat_percent (m e total_marks : Z) : spec_float :=
  SFmul 53 1024
    (SFdiv 53 1024 (binary_normalize 53 1024 m e false)
                   (binary_normalize 53 1024 total_marks 0 false))
    (binary_normalize 53 1024 100 0 false).

Definition agrees_with_SpecFloat (m e total_marks : Z) : bool :=
  JS.number_eqb
    (JS.multiply
       (JS.divide (JS.of_Q (inject_Z m * 2 ^ e)) (JS.of_Z total_marks))
       (JS.of_Z 100))
    (JS.of_spec_float (SpecFloat_percent m e total_marks)).

(** Every score [0, 1/2^k, 2/2^k, ...] up to the total, for each of the
    [count] totals from [first] on. *)
Definition sweep_agrees (k : nat) (first count : nat) : bool :=
  forallb
    (fun t =>
       forallb
         (fun m => agrees_with_SpecFloat (Z.of_nat m) (- Z.of_nat k)
                                         (Z.of_nat t))
         (seq 0 (2 ^ k * t + 1)))
    (seq first count).

(** ** [GET /result/:sessionToken] *)

Module ResultRes.
Record t := mk {
  name : string;
  examTitle : string;
  score : option Q;
  totalMarks : Z;
  percentage : percentage
}.
End ResultRes.

Inductive result_response :=
| ResultNotFound              (* 404 'Result not found' *)
| NotSubmitted                (* 400 'Exam not yet submitted' *)
| CanView (r : ResultRes.t)   (* canView: true *)
| CannotView (message : string).   (* canView: false *)

(** [FROM candidates c JOIN exams e ON c.exam_id = e.id]. *)
Definition candidates_join_exams (db : database) : list (Candidate.t * Exam.t) :=
  flat_map
    (fun c => map (pair c) (db_all (exam_with_id (Candidate.exam_id c)) (exams db)))
    (candidates db).

(** [WHERE c.session_token = ?] on the join. *)
Definition joined_with_token (token : string) (ce : Candidate.t * Exam.t) : bool :=
  with_token token (fst ce).

Definition result (db : database) (token : string) : result_response :=
  match db_get (joined_with_token token) (candidates_join_exams db) with
  | None => ResultNotFound
  | Some (candidate, exam) =>
      if negb (JS.truthy_Z (Candidate.is_submitted candidate)) then NotSubmitted
      else
        let mode := Exam.result_mode exam in
        let '(canViewResult, message) :=
          if String.eqb mode "private" then (true, EmptyString)
          else if String.eqb mode "public" then (true, EmptyString)
          else if String.eqb mode "after_publish" then
            if Exam.results_published exam =? 1 then (true, EmptyString)
            else (false, "Results will be published by the administrator"%string)
          else (false, "Results are only visible to the administrator"%string) in
        if canViewResult then
          CanView {| ResultRes.name := Candidate.name candidate;
                     ResultRes.examTitle := Exam.title exam;
                     ResultRes.score := Candidate.score candidate;
                     ResultRes.totalMarks := Candidate.total_marks candidate;
                     ResultRes.percentage :=
                       percentage_of (Candidate.score candidate)
                                     (Candidate.total_marks candidate) |}
        else CannotView message
  end.

(** ** [GET /leaderboard/:examCode] *)

Module Entry.
Record t := mk {
  rank : Z;
  name : string;
  score : option Q;
  totalMarks : Z;
  percentage : percentage
}.
End Entry.

Inductive leaderboard_response :=
| LeaderboardExamNotFound     (* 404 'Exam not found' *)
| LeaderboardUnavailable      (* 403 'Leaderboard not available for this exam' *)
| LeaderboardOk (examTitle : string) (leaderboard : list Entry.t).

(** Comparison of two values of a nullable column: NULL sorts below
    every value. *)
Definition compare_nullable {A : Type} (cmp : A -> A -> comparison)
  (a b : option A) : comparison :=
  match a, b with
  | None, None => Eq
  | None, Some _ => Lt
  | Some _, None => Gt
  | Some x, Some y => cmp x y
  end.

(** [ORDER BY score DESC, end_time ASC]: [Lt] when the first row comes
    strictly before the second. *)
Definition order_compare (a b : Candidate.t) : comparison :=
  match compare_nullable Qcompare (Candidate.score b) (Candidate.score a) with
  | Eq => compare_nullable Z.compare (Candidate.end_time a) (Candidate.end_time b)
  | c => c
  end.

Definition precedes (a b : Candidate.t) : bool :=
  match order_compare a b with Gt => false | _ => true end.

Fixpoint insert_row (x : Candidate.t) (rows : list Candidate.t)
  : list Candidate.t :=
  match rows with
  | [] => [x]
  | y :: rest => if precedes x y then x :: rows else y :: insert_row x rest
  end.

(** The sort ORDER BY performs, rows with equal keys staying in table
    order. *)
Definition ORDER_BY (rows : list Candidate.t) : list Candidate.t :=
  fold_right insert_row [] rows.

(** [array.map((c, index) => ...)], from a given first index. *)
Fixpoint map_index {A B : Type} (f : A -> Z -> B) (index : Z) (l : list A)
  : list B :=
  match l with
  | [] => []
  | x :: rest => f x index :: map_index f (index + 1) rest
  end.

Definition entry_of (c : Candidate.t) (index : Z) : Entry.t :=
  {| Entry.rank := index + 1;
     Entry.name := Candidate.name c;
     Entry.score := Candidate.score c;
     Entry.totalMarks := Candidate.total_marks c;
     Entry.percentage :=
       percentage_of (Candidate.score c) (Candidate.total_marks c) |}.

(** [WHERE exam_id = ? AND is_submitted = 1]. *)
Definition submitted_for (exam_id : Z) (c : Candidate.t) : bool :=
  (Candidate.exam_id c =? exam_id) && (Candidate.is_submitted c =? 1).

(** [WHERE exam_code = ?] on [exams]. *)
Definition exam_with_code (code : string) (e : Exam.t) : bool :=
  String.eqb (Exam.exam_code e) code.

(** The guard of the handler:
    [exam.result_mode !== 'public' &&
     !(exam.result_mode === 'after_publish' && exam.results_published)]. *)
Definition leaderboard_closed (exam : Exam.t) : bool :=
  negb (String.eqb (Exam.result_mode exam) "public")
  && negb (String.eqb (Exam.result_mode exam) "after_publish"
           && JS.truthy_Z (Exam.results_published exam)).

Definition leaderboard (db : database) (examCode : string)
  : leaderboard_response :=
  match db_get (exam_with_code (JS.toUpperCase examCode)) (exams db) with
  | None => LeaderboardExamNotFound
  | Some exam =>
      if leaderboard_closed exam then LeaderboardUnavailable
      else
        LeaderboardOk (Exam.title exam)
          (map_index entry_of 0
             (ORDER_BY (db_all (submitted_for (Exam.id exam)) (candidates db))))
  end.

(** ** Operator endpoints of [routes/api.js] that set the exam flags *)

Definition with_exams (db : database) (es : list Exam.t) : database :=
  {| exams := es;
     questions := questions db;
     candidates := candidates db;
     responses := responses db;
     seq_candidates := seq_candidates db;
     seq_responses := seq_responses db |}.

Definition set_results_published (v : Z) (e : Exam.t) : Exam.t :=
  {| Exam.id := Exam.id e;
     Exam.title := Exam.title e;
     Exam.exam_code := Exam.exam_code e;
     Exam.duration_minutes := Exam.duration_minutes e;
     Exam.negative_marking := Exam.negative_marking e;
     Exam.result_mode := Exam.result_mode e;
     Exam.allow_back_navigation := Exam.allow_back_navigation e;
     Exam.shuffle_questions := Exam.shuffle_questions e;
     Exam.prevent_duplicate_attempts := Exam.prevent_duplicate_attempts e;
     Exam.is_active := Exam.is_active e;
     Exam.results_published := v |}.

Definition set_is_active (v : Z) (e : Exam.t) : Exam.t :=
  {| Exam.id := Exam.id e;
     Exam.title := Exam.title e;
     Exam.exam_code := Exam.exam_code e;
     Exam.duration_minutes := Exam.duration_minutes e;
     Exam.negative_marking := Exam.negative_marking e;
     Exam.result_mode := Exam.result_mode e;
     Exam.allow_back_navigation := Exam.allow_back_navigation e;
     Exam.shuffle_questions := Exam.shuffle_questions e;
     Exam.prevent_duplicate_attempts := Exam.prevent_duplicate_attempts e;
     Exam.is_active := v;
     Exam.results_published := Exam.results_published e |}.

(** [POST /exams/:id/publish-results]:
    [UPDATE exams SET results_published = 1 WHERE id = ?]. *)
Definition publish_results (db : database) (id : Z) : database :=
  with_exams db
    (db_update (exam_with_id id) (set_results_published 1) (exams db)).

(** [POST /exams/:id/toggle-active]:
    [UPDATE exams SET is_active = ? WHERE id = ?] with
    [exam.is_active ? 0 : 1], when the exam exists. *)
Definition toggle_active (db : database) (id : Z) : database :=
  match db_get (exam_with_id id) (exams db) with
  | None => db
  | Some exam =>
      with_exams db
        (db_update (exam_with_id id)
           (set_is_active (if JS.truthy_Z (Exam.is_active exam) then 0 else 1))
           (exams db))
  end.

(** ** Vocabulary of the properties *)

(** A run of [POST /answer] requests from one browser session for one
    question: each call carries the option selected and the time it is
    served at.  The result is the final database and the responses
    sent, oldest first. *)
Fixpoint answers (db : database) (sess : session) (questionId : Z)
  (calls : list (option string * datetime))
  : database * list answer_response :=
  match calls with
  | [] => (db, [])
  | (selectedOption, now) :: rest =>
      let '(db1, r) :=
        answer db sess
          {| AnswerReq.questionId := questionId;
             AnswerReq.selectedOption := selectedOption |} now in
      let '(db2, rs) := answers db1 sess questionId rest in
      (db2, r :: rs)
  end.

(** The response rows of a (session, question) pair. *)
Definition responses_of (db : database) (cid qid : Z) : list Response.t :=
  db_all (response_of cid qid) (responses db).

(** The pair has a response row, and every row it has carries [m] marks. *)
Definition stored_marks (db : database) (cid qid : Z) (m : Q) : Prop :=
  (exists r, In r (responses db) /\ response_key r = (cid, qid))
  /\ (forall r, In r (responses db) -> response_key r = (cid, qid) ->
                Response.marks_obtained r = m).

(** The response rows of a session. *)
Definition responses_of_session (db : database) (cid : Z) : list Response.t :=
  filter (fun r => Response.candidate_id r =? cid) (responses db).

(** The marks a session has obtained, summed over its response rows. *)
Definition marks_sum (db : database) (cid : Z) : Q :=
  fold_right Qplus 0%Q
    (map Response.marks_obtained (responses_of_session db cid)).

(** The sessions of an exam that have been submitted. *)
Definition submitted_sessions (db : database) (exam_id : Z) : list Candidate.t :=
  filter (fun c => (Candidate.exam_id c =? exam_id)
                   && (Candidate.is_submitted c =? 1)) (candidates db).

(** Order on nullable keys, NULL lowest. *)
Definition null_lt {A : Type} (lt : A -> A -> Prop) (a b : option A) : Prop :=
  match a, b with
  | None, Some _ => True
  | Some x, Some y => lt x y
  | _, None => False
  end.

Definition null_eq {A : Type} (eq : A -> A -> Prop) (a b : option A) : Prop :=
  match a, b with
  | None, None => True
  | Some x, Some y => eq x y
  | _, _ => False
  end.

(** Leaderboard order: a higher score first; on equal scores the
    earlier [end_time] first, equal [end_time]s in either order. *)
Definition listed_before (a b : Candidate.t) : Prop :=
  null_lt Qlt (Candidate.score b) (Candidate.score a)
  \/ (null_eq Qeq (Candidate.score a) (Candidate.score b)
      /\ (null_lt Z.lt (Candidate.end_time a) (Candidate.end_time b)
          \/ null_eq (@eq Z) (Candidate.end_time a) (Candidate.end_time b))).

(** The exact value of [score / total_marks * 100]. *)
Definition exact_percentage (score : option Q) (total_marks : Z) : Q :=
  (JS.num score / inject_Z total_marks * 100)%Q.

(** [h] hundredths is [x] rounded to two decimals: the nearest count of
    hundredths and, midway between two, the one farther from 0. *)
Definition rounded_to_2_decimals (x : Q) (h : Z) : Prop :=
  (Qabs (x * 100 - inject_Z h) < 1 # 2)%Q
  \/ ((Qabs (x * 100 - inject_Z h) == 1 # 2)%Q
      /\ (Qabs (x * 100) < Qabs (inject_Z h))%Q).

(** A percentage that is the exact quotient rounded to two decimals,
    and the number 0 for a total of 0. *)
Definition exactly_rounded_percentage (score : option Q) (total_marks : Z)
  (p : percentage) : Prop :=
  (0 < total_marks ->
   exists h, p = Fixed2 h
             /\ rounded_to_2_decimals (exact_percentage score total_marks) h)
  /\ (total_marks = 0 -> p = Number0).

(** [h] hundredths is [x] rounded to two decimals after a relative error
    of at most [2^-50], which is what the four roundings of the binary64
    arithmetic (of the score, of the total, of the quotient and of the
    product) can add up to. *)
Definition rounded_within (x : Q) (h : Z) : Prop :=
  (Qabs (x * 100 - inject_Z h) <= (1 # 2) + 2 ^ (-50) * Qabs (x * 100))%Q.

(** [x] is farther than that error from every midpoint between two
    counts of hundredths: [k] is the nearest count with room to spare. *)
Definition clear_of_midpoints (x : Q) (k : Z) : Prop :=
  (Qabs (x * 100 - inject_Z k) < (1 # 2) - 2 ^ (-50) * Qabs (x * 100))%Q.

(** The percentage shown for a score out of a total: for a total that
    fits an INTEGER column and a score of at most [10^18] times the
    total, the quotient rounded to two decimals within the error of the
    arithmetic, hence exactly rounded when it is clear of the midpoints;
    the number 0 for a total of 0. *)
Definition shown_percentage (score : option Q) (total_marks : Z)
  (p : percentage) : Prop :=
  (0 < total_marks <= 2 ^ 63 ->
   (Qabs (JS.num score) <= 10 ^ 18 * inject_Z total_marks)%Q ->
   exists h, p = Fixed2 h
             /\ rounded_within (exact_percentage score total_marks) h
             /\ forall k,
                  clear_of_midpoints (exact_percentage score total_marks) k ->
                  h = k)
  /\ (total_marks = 0 -> p = Number0).

(** The result fields of a finalized session. *)
Definition result_view (c : Candidate.t) (e : Exam.t) : ResultRes.t :=
  {| ResultRes.name := Candidate.name c;
     ResultRes.examTitle := Exam.title e;
     ResultRes.score := Candidate.score c;
     ResultRes.totalMarks := Candidate.total_marks c;
     ResultRes.percentage :=
       percentage_of (Candidate.score c) (Candidate.total_marks c) |}.

(** The response row a served answer leaves for its pair. *)
Definition saved_row (rid cid qid : Z) (sel : option string)
  (question : Question.t) (m : Q) (now : datetime) : Response.t :=
  {| Response.id := rid;
     Response.candidate_id := cid;
     Response.question_id := qid;
     Response.selected_option := or_null sel;
     Response.is_correct := if isCorrect sel question then 1 else 0;
     Response.marks_obtained := m;
     Response.answered_at := now |}.

(** The session is unsubmitted and the question is one of its exam. *)
Definition answerable (sess : session) (qid cid : Z)
  (candidate : Candidate.t) (question : Question.t) (exam : Exam.t)
  (db : database) : Prop :=
  session_candidate sess = Some cid
  /\ db_get (unsubmitted_with_id cid) (candidates db) = Some candidate
  /\ db_get (question_in qid (Candidate.exam_id candidate)) (questions db)
     = Some question
  /\ db_get (exam_with_id (Candidate.exam_id candidate)) (exams db)
     = Some exam.

(** *** The store as the exam routes drive it *)

(** A request to one of the three routes that write, with the values
    the handler draws from its environment. *)
Inductive request :=
| PostStart (sess : session) (body : StartReq.body) (uuid : string)
            (now : datetime)
| PostAnswer (sess : session) (body : AnswerReq.body) (now : datetime)
| PostSubmit (sess : session) (now : datetime).

(** The store after a request is served. *)
Definition serve (db : database) (req : request) : database :=
  match req with
  | PostStart sess body uuid now => fst (fst (start db sess body uuid now))
  | PostAnswer sess body now => fst (answer db sess body now)
  | PostSubmit sess now => fst (fst (submit db sess now))
  end.

(** The store after a sequence of requests, served one after another. *)
Definition run (db : database) (reqs : list request) : database :=
  fold_left serve reqs db.

(** Every submitted session carries the clamped sum of the marks of its
    responses as its score. *)
Definition scores_settled (db : database) : Prop :=
  forall c, In c (candidates db) -> Candidate.is_submitted c <> 0 ->
    exists s, Candidate.score c = Some s
              /\ (s == Qmax 0 (marks_sum db (Candidate.id c)))%Q.

(** What the exam routes maintain: the primary key of [candidates], the
    unique index of [responses], and settled scores. *)
Definition consistent (db : database) : Prop :=
  NoDup (map Candidate.id (candidates db))
  /\ idx_responses_unique db
  /\ scores_settled db.

(** ** A small database used to exercise the routes *)

Module Sample.

Definition exam1 : Exam.t :=
  {| Exam.id := 1;
     Exam.title := "Quiz one";
     Exam.exam_code := "Q1";
     Exam.duration_minutes := 30;
     Exam.negative_marking := 1 # 2;
     Exam.result_mode := "after_publish";
     Exam.allow_back_navigation := 1;
     Exam.shuffle_questions := 0;
     Exam.prevent_duplicate_attempts := 1;
     Exam.is_active := 1;
     Exam.results_published := 0 |}.

(** A public exam that has been deactivated. *)
Definition exam2 : Exam.t :=
  {| Exam.id := 2;
     Exam.title := "Quiz two";
     Exam.exam_code := "Q2";
     Exam.duration_minutes := 10;
     Exam.negative_marking := 0;
     Exam.result_mode := "public";
     Exam.allow_back_navigation := 1;
     Exam.shuffle_questions := 0;
     Exam.prevent_duplicate_attempts := 0;
     Exam.is_active := 0;
     Exam.results_published := 0 |}.

Definition question1 : Question.t :=
  {| Question.id := 1;
     Question.exam_id := 1;
     Question.correct_option := "C";
     Question.marks := 2;
     Question.question_order := 1 |}.

Definition question2 : Question.t :=
  {| Question.id := 2;
     Question.exam_id := 1;
     Question.correct_option := "A";
     Question.marks := 1;
     Question.question_order := 2 |}.

Definition finished (id : Z) (name email token : string) (exam_id : Z)
  (score : Q) (total end_time : Z) : Candidate.t :=
  {| Candidate.id := id;
     Candidate.name := name;
     Candidate.email := email;
     Candidate.exam_id := exam_id;
     Candidate.session_token := token;
     Candidate.start_time := 0;
     Candidate.end_time := Some end_time;
     Candidate.score := Some score;
     Candidate.total_marks := total;
     Candidate.is_submitted := 1 |}.

(** No session yet. *)
Definition db0 : database :=
  {| exams := [exam1; exam2];
     questions := [question1; question2];
     candidates :=
       [ finished 1 "Bo" "bo@example.com" "tok-b" 2 3 8 50;
         finished 2 "Cy" "cy@example.com" "tok-c" 2 5 8 70;
         finished 3 "Di" "di@example.com" "tok-d" 2 5 8 60 ];
     responses := [];
     seq_candidates := 3;
     seq_responses := 0 |}.

(** Two more sessions of the public exam: 23 marks of 160, whose exact
    percentage 14.375 is midway between two hundredths, and a score of
    3 - 0.1 of 16, stored as the binary64 value nearest to 2.9. *)
Definition db4 : database :=
  {| exams := [exam1; exam2];
     questions := [question1; question2];
     candidates :=
       candidates db0
       ++ [ finished 4 "Eve" "eve@example.com" "tok-e" 2 23 160 80;
            finished 5 "Flo" "flo@example.com" "tok-f" 2
              (6530219459687219 # 2251799813685248) 16 90 ];
     responses := [];
     seq_candidates := 5;
     seq_responses := 0 |}.

Definition nobody : session := {| candidateId := None; sessionToken := None |}.

Definition ann : StartReq.body :=
  {| StartReq.name := " Ann ";
     StartReq.email := "Ann@Example.com";
     StartReq.exam_code := "q1" |}.

(** Ann has started exam Q1. *)
Definition started : database * session * start_response :=
  start db0 nobody ann "tok-a" 100.

Definition db1 : database := fst (fst started).
Definition ann_session : session := snd (fst started).

(** Ann's session row while the exam is in progress. *)
Definition ann_row : Candidate.t :=
  {| Candidate.id := 4;
     Candidate.name := "Ann";
     Candidate.email := "ann@example.com";
     Candidate.exam_id := 1;
     Candidate.session_token := "tok-a";
     Candidate.start_time := 100;
     Candidate.end_time := None;
     Candidate.score := None;
     Candidate.total_marks := 3;
     Candidate.is_submitted := 0 |}.

(** What Ann's first [POST /start] answered. *)
Definition ann_started : StartRes.t :=
  {| StartRes.sessionToken := "tok-a";
     StartRes.examTitle := "Quiz one";
     StartRes.examCode := "Q1";
     StartRes.duration := 30;
     StartRes.allowBackNavigation := 1;
     StartRes.resultMode := "after_publish";
     StartRes.startTime := 100 |}.

(** The same candidate, typing the email and the code differently. *)
Definition ann_again : StartReq.body :=
  {| StartReq.name := "Ann";
     StartReq.email := "ANN@example.COM";
     StartReq.exam_code := "Q1" |}.

(** Ann has answered question 1 wrongly (A), then question 2 wrongly (B). *)
Definition db2 : database :=
  fst (answer
         (fst (answer db1 ann_session
                 {| AnswerReq.questionId := 1;
                    AnswerReq.selectedOption := Some "a"%string |} 110))
         ann_session
         {| AnswerReq.questionId := 2;
            AnswerReq.selectedOption := Some "b"%string |} 115).

(** Ann has submitted. *)
Definition db3 : database := fst (fst (submit db2 ann_session 130)).

(** Ann's session row once submitted: two wrong answers at half a mark
    each sum to -1, which the score clamps to 0. *)
Definition ann_done : Candidate.t :=
  {| Candidate.id := 4;
     Candidate.name := "Ann";
     Candidate.email := "ann@example.com";
     Candidate.exam_id := 1;
     Candidate.session_token := "tok-a";
     Candidate.start_time := 100;
     Candidate.end_time := Some 130;
     Candidate.score := Some 0%Q;
     Candidate.total_marks := 3;
     Candidate.is_submitted := 1 |}.

End Sample.

(** ** Queries over tables *)

Section Tables.

Context {A : Type}.
Variable where_ : A -> bool.

Lemma db_get_app (l1 l2 : list A) :
  db_get where_ (l1 ++ l2) =
  match db_get where_ l1 with
  | Some x => Some x
  | None => db_get where_ l2
  end.
Proof.
  unfold db_get.
  induction l1 as [|x l1 IH]; simpl; [reflexivity|].
  destruct (where_ x); [reflexivity | exact IH].
Qed.

Lemma db_get_selected (l : list A) (x : A) :
  db_get where_ l = Some x -> In x l /\ where_ x = true.
Proof. apply find_some. Qed.

Lemma db_get_none (l : list A) :
  db_get where_ l = None -> forall x, In x l -> where_ x = false.
Proof. apply find_none. Qed.

Lemma db_get_none_all (l : list A) :
  db_get where_ l = None -> db_all where_ l = [].
Proof.
  unfold db_get, db_all.
  induction l as [|x l IH]; simpl; [reflexivity|].
  destruct (where_ x); [discriminate | exact IH].
Qed.

Lemma db_get_some_all (l : list A) (x : A) :
  db_get where_ l = Some x -> exists rest, db_all where_ l = x :: rest.
Proof.
  unfold db_get, db_all.
  induction l as [|y l IH]; simpl; [discriminate|].
  destruct (where_ y).
  - intros [= ->]. eauto.
  - exact IH.
Qed.

Lemma db_get_existsb (l : list A) :
  existsb where_ l = false -> db_get where_ l = None.
Proof.
  unfold db_get.
  induction l as [|x l IH]; simpl; [reflexivity|].
  destruct (where_ x); simpl; [discriminate | exact IH].
Qed.

(** An UPDATE that keeps the columns of the WHERE clause rewrites
    exactly the selected rows. *)
Lemma db_all_update (set : A -> A) (l : list A) :
  (forall x, where_ (set x) = where_ x) ->
  db_all where_ (db_update where_ set l) = map set (db_all where_ l).
Proof.
  intros Hkeep. unfold db_all, db_update.
  induction l as [|x l IH]; simpl; [reflexivity|].
  destruct (where_ x) eqn:Hx.
  - rewrite Hkeep, Hx. simpl. now rewrite IH.
  - rewrite Hx. exact IH.
Qed.

Lemma in_db_update (set : A -> A) (l : list A) (y : A) :
  In y (db_update where_ set l) ->
  exists x, In x l /\ y = (if where_ x then set x else x).
Proof.
  unfold db_update. intros H. apply in_map_iff in H.
  destruct H as (x & <- & Hx). eauto.
Qed.

End Tables.

Lemma db_get_all_false {A : Type} (where_ : A -> bool) (l : list A) :
  (forall x, In x l -> where_ x = false) -> db_get where_ l = None.
Proof.
  unfold db_get. induction l as [|x l IH]; simpl; intros H; [reflexivity|].
  rewrite (H x (or_introl eq_refl)). apply IH. intros y Hy. apply H. now right.
Qed.

(** A column the UPDATE does not assign keeps its values. *)
Lemma map_db_update {A B : Type} (where_ : A -> bool) (set : A -> A)
  (col : A -> B) (l : list A) :
  (forall x, col (set x) = col x) ->
  map col (db_update where_ set l) = map col l.
Proof.
  intros Hcol. unfold db_update. rewrite map_map.
  apply map_ext. intros x. destruct (where_ x); [apply Hcol | reflexivity].
Qed.

Lemma response_of_key (cid qid : Z) (r : Response.t) :
  response_of cid qid r = true <-> response_key r = (cid, qid).
Proof.
  unfold response_of, response_key. rewrite andb_true_iff, !Z.eqb_eq.
  split; [intros [-> ->]; reflexivity | intros [= -> ->]; auto].
Qed.

(** ** [POST /answer]: what a request changes *)

Lemma save_response_frame db cid qid sel correct marks now :
  let db' := save_response db cid qid sel correct marks now in
  exams db' = exams db /\ questions db' = questions db
  /\ candidates db' = candidates db /\ seq_candidates db' = seq_candidates db.
Proof.
  unfold save_response.
  destruct (db_get _ _); simpl; auto.
Qed.

(** C9.  A [POST /answer] request, whatever it carries and however it
    ends, leaves the [candidates] table as it was: no session row has its
    score, start_time, total_marks, is_submitted or end_time (or any other
    column) changed.  The exams and questions are untouched as well; only
    response rows are written. *)
Theorem answer_leaves_sessions_unchanged
  (db : database) (sess : session) (body : AnswerReq.body) (now : datetime) :
  let db' := fst (answer db sess body now) in
  candidates db' = candidates db
  /\ exams db' = exams db
  /\ questions db' = questions db.
Proof.
  unfold answer.
  destruct (session_candidate sess) as [cid|]; simpl; auto.
  destruct (db_get _ (candidates db)) as [candidate|]; simpl; auto.
  destruct (db_get _ (questions db)) as [question|]; simpl; auto.
  destruct (marksObtained _ _ _) as [marks|]; simpl; auto.
  destruct (save_response_frame db cid (AnswerReq.questionId body)
              (or_null (AnswerReq.selectedOption body))
              (if isCorrect (AnswerReq.selectedOption body) question
               then 1 else 0) marks now) as (He & Hq & Hc & _).
  auto.
Qed.

(** After the upsert, the pair has a row. *)
Lemma save_response_has_row db cid qid sel correct marks now :
  exists r,
    In r (responses (save_response db cid qid sel correct marks now))
    /\ response_key r = (cid, qid).
Proof.
  unfold save_response.
  destruct (db_get (response_of cid qid) (responses db)) as [r0|] eqn:Hget;
    simpl.
  - apply db_get_selected in Hget. destruct Hget as [Hin Hsel].
    eexists. split.
    + unfold db_update. apply in_map_iff. exists r0. split; [|exact Hin].
      rewrite Hsel. reflexivity.
    + apply response_of_key in Hsel. exact Hsel.
  - eexists. split; [apply in_or_app; right; left; reflexivity|].
    reflexivity.
Qed.

(** After the upsert, every row of the pair carries the values of this
    call. *)
Lemma save_response_rows db cid qid sel correct marks now r :
  In r (responses (save_response db cid qid sel correct marks now)) ->
  response_key r = (cid, qid) ->
  Response.selected_option r = sel
  /\ Response.is_correct r = correct
  /\ Response.marks_obtained r = marks
  /\ Response.answered_at r = now.
Proof.
  unfold save_response.
  destruct (db_get (response_of cid qid) (responses db)) as [r0|] eqn:Hget;
    simpl; intros Hin Hkey.
  - apply in_db_update in Hin. destruct Hin as (x & Hx & ->).
    destruct (response_of cid qid x) eqn:Hsel; simpl; auto.
    apply response_of_key in Hkey. congruence.
  - apply in_app_or in Hin. destruct Hin as [Hin | [<- | []]]; simpl; auto.
    apply response_of_key in Hkey.
    rewrite (db_get_none _ _ Hget r Hin) in Hkey. discriminate.
Qed.

(** With the session's exam at hand, grading never throws. *)
Lemma marksObtained_defined sel question exam :
  exists m, marksObtained sel question (Some exam) = Some m.
Proof.
  unfold marksObtained.
  destruct (JS.truthy_opt sel); [|eauto].
  destruct (isCorrect sel question); [eauto|].
  destruct (gt0 _); eauto.
Qed.

(** The request of an unsubmitted session for a question of its exam is
    served: the response is graded and saved. *)
Lemma answer_served db sess qid sel now cid candidate question exam m :
  session_candidate sess = Some cid ->
  db_get (unsubmitted_with_id cid) (candidates db) = Some candidate ->
  db_get (question_in qid (Candidate.exam_id candidate)) (questions db)
  = Some question ->
  db_get (exam_with_id (Candidate.exam_id candidate)) (exams db) = Some exam ->
  marksObtained sel question (Some exam) = Some m ->
  answer db sess
    {| AnswerReq.questionId := qid; AnswerReq.selectedOption := sel |} now
  = (save_response db cid qid (or_null sel)
       (if isCorrect sel question then 1 else 0) m now,
     AnswerOk).
Proof.
  intros Hs Hc Hq He Hm. unfold answer. simpl.
  rewrite Hs, Hc, Hq, He, Hm. reflexivity.
Qed.

Lemma truthy_string_nonempty (s : string) :
  s <> EmptyString -> JS.truthy_string s = true.
Proof. destruct s; [congruence | reflexivity]. Qed.

Lemma gt0_iff (x : Q) : gt0 x = true <-> (0 < x)%Q.
Proof.
  unfold gt0. rewrite negb_true_iff.
  split.
  - intros H. apply Qnot_le_lt. intros Hle.
    apply Qle_bool_iff in Hle. congruence.
  - intros H. destruct (Qle_bool x 0) eqn:Hb; [|reflexivity].
    apply Qle_bool_iff in Hb. exfalso. exact (Qlt_not_le _ _ H Hb).
Qed.

(** C2.  When an unsubmitted session answers a question of its exam, the
    request succeeds and the marks stored for that response are: 0 when no
    option is selected; the question's marks when the uppercased option
    equals the question's correct option; minus the exam's negative-marking
    value (not scaled by the question's marks) when the answer is wrong and
    that value is positive; 0 when the answer is wrong and that value is
    zero. *)
Theorem answer_marks
  (db : database) (sess : session) (qid : Z) (sel : option string)
  (now : datetime) (cid : Z) (candidate : Candidate.t)
  (question : Question.t) (exam : Exam.t) :
  session_candidate sess = Some cid ->
  db_get (unsubmitted_with_id cid) (candidates db) = Some candidate ->
  db_get (question_in qid (Candidate.exam_id candidate)) (questions db)
  = Some question ->
  db_get (exam_with_id (Candidate.exam_id candidate)) (exams db) = Some exam ->
  let out :=
    answer db sess
      {| AnswerReq.questionId := qid; AnswerReq.selectedOption := sel |} now in
  snd out = AnswerOk
  /\ (JS.truthy_opt sel = false -> stored_marks (fst out) cid qid 0)
  /\ (forall s, sel = Some s -> s <> EmptyString ->
        JS.toUpperCase s = Question.correct_option question ->
        stored_marks (fst out) cid qid (inject_Z (Question.marks question)))
  /\ (forall s, sel = Some s -> s <> EmptyString ->
        JS.toUpperCase s <> Question.correct_option question ->
        (0 < Exam.negative_marking exam)%Q ->
        stored_marks (fst out) cid qid (- Exam.negative_marking exam))
  /\ (forall s, sel = Some s -> s <> EmptyString ->
        JS.toUpperCase s <> Question.correct_option question ->
        (Exam.negative_marking exam == 0)%Q ->
        stored_marks (fst out) cid qid 0).
Proof.
  intros Hs Hc Hq He out.
  assert (Hstored : forall m,
             marksObtained sel question (Some exam) = Some m ->
             snd out = AnswerOk /\ stored_marks (fst out) cid qid m).
  { intros m Hm. subst out.
    rewrite (answer_served _ _ _ _ _ _ _ _ _ _ Hs Hc Hq He Hm). simpl.
    split; [reflexivity|]. split.
    - apply save_response_has_row.
    - intros r Hin Hkey.
      now destruct (save_response_rows _ _ _ _ _ _ _ _ Hin Hkey)
        as (_ & _ & Hmarks & _). }
  split.
  { destruct (marksObtained_defined sel question exam) as [m Hm].
    apply (Hstored m Hm). }
  split; [|split; [|split]].
  - intros Hno. apply Hstored. unfold marksObtained. now rewrite Hno.
  - intros s -> Hne Hup. apply Hstored. unfold marksObtained, isCorrect. simpl.
    rewrite (truthy_string_nonempty s Hne). simpl.
    apply String.eqb_eq in Hup. now rewrite Hup.
  - intros s -> Hne Hup Hpos. apply Hstored.
    unfold marksObtained, isCorrect. simpl.
    rewrite (truthy_string_nonempty s Hne). simpl.
    apply String.eqb_neq in Hup. rewrite Hup.
    apply gt0_iff in Hpos. now rewrite Hpos.
  - intros s -> Hne Hup Hzero. apply Hstored.
    unfold marksObtained, isCorrect. simpl.
    rewrite (truthy_string_nonempty s Hne). simpl.
    apply String.eqb_neq in Hup. rewrite Hup.
    destruct (gt0 (Exam.negative_marking exam)) eqn:Hg; [|reflexivity].
    apply gt0_iff in Hg. rewrite Hzero in Hg. now apply Qlt_irrefl in Hg.
Qed.

(** ** [POST /answer]: one row per (session, question) *)

(** The unique index leaves at most one row per pair. *)
Lemma unique_index_at_most_one (l : list Response.t) (cid qid : Z) :
  NoDup (map response_key l) ->
  (List.length (db_all (response_of cid qid) l) <= 1)%nat.
Proof.
  unfold db_all.
  induction l as [|x l IH]; simpl; intros Hnd; [lia|].
  apply NoDup_cons_iff in Hnd. destruct Hnd as [Hnotin Hnd].
  destruct (response_of cid qid x) eqn:Hx; [|auto].
  simpl.
  assert (Hnone : filter (response_of cid qid) l = []).
  { destruct (filter (response_of cid qid) l) as [|y rest] eqn:Hf;
      [reflexivity|].
    exfalso. apply Hnotin.
    assert (Hy : In y (filter (response_of cid qid) l))
      by (rewrite Hf; left; reflexivity).
    apply filter_In in Hy. destruct Hy as [Hyin Hyp].
    apply response_of_key in Hx. apply response_of_key in Hyp.
    rewrite Hx, <- Hyp. now apply in_map. }
  rewrite Hnone. simpl. lia.
Qed.

(** The upsert keeps the unique index. *)
Lemma save_response_keeps_index db cid qid sel correct marks now :
  idx_responses_unique db ->
  idx_responses_unique (save_response db cid qid sel correct marks now).
Proof.
  unfold idx_responses_unique, save_response. intros Hnd.
  destruct (db_get (response_of cid qid) (responses db)) as [r0|] eqn:Hget;
    simpl.
  - rewrite map_db_update; [exact Hnd | reflexivity].
  - rewrite map_app. simpl.
    apply NoDup_app; [exact Hnd | repeat constructor; intros [] |].
    intros k Hk [<- | []].
    apply in_map_iff in Hk. destruct Hk as (r & Hkey & Hin).
    apply (proj2 (response_of_key cid qid r)) in Hkey.
    rewrite (db_get_none _ _ Hget r Hin) in Hkey. discriminate.
Qed.

(** From at most one row for the pair, the upsert leaves exactly one,
    holding the values of this call. *)
Lemma save_response_single db cid qid sel question m now :
  (List.length (responses_of db cid qid) <= 1)%nat ->
  exists rid,
    responses_of
      (save_response db cid qid (or_null sel)
         (if isCorrect sel question then 1 else 0) m now) cid qid
    = [saved_row rid cid qid sel question m now].
Proof.
  unfold responses_of, save_response. intros Hlen.
  destruct (db_get (response_of cid qid) (responses db)) as [r0|] eqn:Hget;
    simpl.
  - rewrite db_all_update by reflexivity.
    destruct (db_get_selected _ _ _ Hget) as [_ Hsel].
    apply response_of_key in Hsel. injection Hsel as Hc Hq.
    destruct (db_get_some_all _ _ _ Hget) as [rest Hall].
    rewrite Hall in Hlen |- *.
    destruct rest; [|simpl in Hlen; lia].
    exists (Response.id r0). simpl. unfold saved_row. now rewrite Hc, Hq.
  - unfold db_all. rewrite filter_app.
    fold (db_all (response_of cid qid) (responses db)).
    rewrite (db_get_none_all _ _ Hget). simpl.
    unfold response_of at 1. simpl. rewrite !Z.eqb_refl. simpl.
    eexists. reflexivity.
Qed.

Section OnePair.

Variables (sess : session) (qid cid : Z).
Variables (candidate : Candidate.t) (question : Question.t) (exam : Exam.t).

Lemma answer_step db sel now :
  answerable sess qid cid candidate question exam db ->
  (List.length (responses_of db cid qid) <= 1)%nat ->
  exists db' rid m,
    answer db sess
      {| AnswerReq.questionId := qid; AnswerReq.selectedOption := sel |} now
    = (db', AnswerOk)
    /\ marksObtained sel question (Some exam) = Some m
    /\ responses_of db' cid qid = [saved_row rid cid qid sel question m now]
    /\ answerable sess qid cid candidate question exam db'
    /\ (idx_responses_unique db -> idx_responses_unique db').
Proof.
  intros (Hs & Hc & Hq & He) Hlen.
  destruct (marksObtained_defined sel question exam) as [m Hm].
  destruct (save_response_single db cid qid sel question m now Hlen)
    as [rid Hrows].
  eexists. exists rid, m.
  split; [apply (answer_served _ _ _ _ _ _ _ _ _ _ Hs Hc Hq He Hm)|].
  split; [exact Hm|]. split; [exact Hrows|]. split.
  - destruct (save_response_frame db cid qid (or_null sel)
                (if isCorrect sel question then 1 else 0) m now)
      as (Hex & Hqu & Hca & _).
    unfold answerable. rewrite Hex, Hqu, Hca. auto.
  - apply save_response_keeps_index.
Qed.

(** A run of answers for the pair keeps the session answerable, the
    pair at no more than one row and the index unique; every call is
    served. *)
Lemma answers_run calls : forall db,
  answerable sess qid cid candidate question exam db ->
  (List.length (responses_of db cid qid) <= 1)%nat ->
  let out := answers db sess qid calls in
  answerable sess qid cid candidate question exam (fst out)
  /\ (List.length (responses_of (fst out) cid qid) <= 1)%nat
  /\ Forall (eq AnswerOk) (snd out)
  /\ (idx_responses_unique db -> idx_responses_unique (fst out)).
Proof.
  induction calls as [|[sel now] calls IH]; intros db Hok Hlen; simpl.
  - auto.
  - destruct (answer_step db sel now Hok Hlen)
      as (db1 & rid & m & Hans & _ & Hrows & Hok1 & Hidx1).
    rewrite Hans.
    assert (Hlen1 : (List.length (responses_of db1 cid qid) <= 1)%nat)
      by (rewrite Hrows; simpl; lia).
    specialize (IH db1 Hok1 Hlen1). simpl in IH.
    destruct (answers db1 sess qid calls) as [db2 rs]. simpl in *.
    destruct IH as (Hok2 & Hlen2 & Hall & Hidx2).
    split; [exact Hok2|]. split; [exact Hlen2|].
    split; [constructor; [reflexivity | exact Hall]|].
    intros Hidx. apply Hidx2, Hidx1, Hidx.
Qed.

Lemma answers_app calls1 calls2 : forall db,
  answers db sess qid (calls1 ++ calls2)
  = (fst (answers (fst (answers db sess qid calls1)) sess qid calls2),
     snd (answers db sess qid calls1)
     ++ snd (answers (fst (answers db sess qid calls1)) sess qid calls2)).
Proof.
  induction calls1 as [|[sel now] calls1 IH]; intros db; simpl.
  - now destruct (answers db sess qid calls2).
  - destruct (answer db sess _ now) as [db1 r].
    rewrite IH.
    destruct (answers db1 sess qid calls1) as [db2 rs]. reflexivity.
Qed.

End OnePair.

(** C3.  Starting from a store that satisfies the unique index on
    [responses(candidate_id, question_id)], after any run of answers of an
    unsubmitted session to one question of its exam, every call has been
    served, the pair has exactly one response row, and that row's
    selected_option, is_correct, marks_obtained and answered_at are those
    of the final call alone: the marks are the grade of the last
    selection, not a running total.  The unique index still holds. *)
Theorem reanswer_replaces
  (db : database) (sess : session) (qid cid : Z)
  (candidate : Candidate.t) (question : Question.t) (exam : Exam.t)
  (earlier : list (option string * datetime))
  (sel : option string) (now : datetime) :
  idx_responses_unique db ->
  session_candidate sess = Some cid ->
  db_get (unsubmitted_with_id cid) (candidates db) = Some candidate ->
  db_get (question_in qid (Candidate.exam_id candidate)) (questions db)
  = Some question ->
  db_get (exam_with_id (Candidate.exam_id candidate)) (exams db) = Some exam ->
  let out := answers db sess qid (earlier ++ [(sel, now)]) in
  Forall (eq AnswerOk) (snd out)
  /\ idx_responses_unique (fst out)
  /\ exists rid m,
       marksObtained sel question (Some exam) = Some m
       /\ responses_of (fst out) cid qid
          = [ {| Response.id := rid;
                 Response.candidate_id := cid;
                 Response.question_id := qid;
                 Response.selected_option := or_null sel;
                 Response.is_correct :=
                   if isCorrect sel question then 1 else 0;
                 Response.marks_obtained := m;
                 Response.answered_at := now |} ].
Proof.
  intros Hidx Hs Hc Hq He out.
  assert (Hok : answerable sess qid cid candidate question exam db)
    by (unfold answerable; auto).
  assert (Hlen : (List.length (responses_of db cid qid) <= 1)%nat)
    by (apply unique_index_at_most_one, Hidx).
  destruct (answers_run sess qid cid candidate question exam earlier db
              Hok Hlen) as (Hok1 & Hlen1 & Hall1 & Hidx1).
  subst out. rewrite answers_app.
  set (db1 := fst (answers db sess qid earlier)) in *.
  destruct (answer_step sess qid cid candidate question exam db1 sel now
              Hok1 Hlen1) as (db2 & rid & m & Hans & Hm & Hrows & _ & Hidx2).
  simpl. rewrite Hans. simpl.
  split; [|split].
  - apply Forall_app. split; [exact Hall1 | repeat constructor].
  - auto.
  - exists rid, m. split; [exact Hm | exact Hrows].
Qed.

(** ** [POST /submit]: the score of a session *)

Lemma or0_Q_eq (x : Q) : (JS.or0_Q x == x)%Q.
Proof.
  unfold JS.or0_Q. destruct (Qeq_bool x 0) eqn:Hx; [|reflexivity].
  apply Qeq_bool_eq in Hx. now rewrite Hx.
Qed.

Lemma fold_left_Qplus (xs : list Q) : forall x,
  (fold_left Qplus xs x == x + fold_right Qplus 0 xs)%Q.
Proof.
  induction xs as [|y xs IH]; intros x; simpl.
  - now rewrite Qplus_0_r.
  - rewrite IH. now rewrite Qplus_assoc.
Qed.

(** [COALESCE(SUM(col), 0)] is the sum of the column, 0 over no rows. *)
Lemma COALESCE_SUM_Q (xs : list Q) :
  (COALESCE (SUM_Q xs) 0 == fold_right Qplus 0 xs)%Q.
Proof.
  destruct xs as [|x xs]; simpl; [reflexivity | apply fold_left_Qplus].
Qed.

Lemma score_formula (db : database) (cid : Z) :
  (JS.Math_max0 (JS.or0_Q (total_score db cid))
   == Qmax 0 (marks_sum db cid))%Q.
Proof.
  unfold JS.Math_max0, total_score, marks_sum, responses_of_session, db_all.
  apply Q.max_compat; [reflexivity|].
  rewrite or0_Q_eq. apply COALESCE_SUM_Q.
Qed.


(** ** [POST /start]: resuming and refusing *)

Lemma db_get_exists {A : Type} (where_ : A -> bool) (l : list A) (x : A) :
  In x l -> where_ x = true -> exists y, db_get where_ l = Some y.
Proof.
  unfold db_get. induction l as [|z l IH]; simpl; [intros []|].
  intros [-> | Hin] Hx.
  - rewrite Hx. eauto.
  - destruct (where_ z); eauto.
Qed.

Lemma toUpperCase_empty (s : string) :
  JS.toUpperCase s = EmptyString -> s = EmptyString.
Proof. destruct s; [reflexivity | discriminate]. Qed.

Lemma truthy_string_true (s : string) :
  JS.truthy_string s = true -> s <> EmptyString.
Proof. destruct s; [discriminate | congruence]. Qed.

Lemma emailRegex_nonempty (email : string) :
  JS.emailRegex_test email = true -> JS.truthy_string email = true.
Proof. destruct email; [discriminate | reflexivity]. Qed.

(** The handler past its input checks, once the exam has been found,
    no duplicate attempt stands in the way and an ongoing session
    exists: it answers with that session. *)
Lemma start_resume db sess body uuid now exam ongoing :
  JS.truthy_string (StartReq.name body) = true ->
  JS.truthy_string (StartReq.exam_code body) = true ->
  JS.emailRegex_test (StartReq.email body) = true ->
  db_get (active_exam_with_code (JS.toUpperCase (StartReq.exam_code body)))
         (exams db) = Some exam ->
  existingCandidate db exam (email_key (StartReq.email body)) = None ->
  db_get (session_of (Exam.id exam) (email_key (StartReq.email body)) 0)
         (candidates db) = Some ongoing ->
  start db sess body uuid now
  = start_respond db exam ongoing (Candidate.session_token ongoing).
Proof.
  intros Hn Hc Hre He Hdup Hon. unfold start.
  rewrite Hn, Hc, (emailRegex_nonempty _ Hre), Hre. simpl. rewrite He.
  rewrite Hdup, Hon. reflexivity.
Qed.

(** What a successful [POST /start] leaves behind: the exam it found,
    no duplicate attempt in the way, and the session it answered with as
    the ongoing session of the (exam, email key) pair. *)
Lemma start_ok_inv db sess body uuid now db1 sess1 r :
  start db sess body uuid now = (db1, sess1, StartOk r) ->
  JS.truthy_string (StartReq.name body) = true
  /\ JS.truthy_string (StartReq.exam_code body) = true
  /\ JS.emailRegex_test (StartReq.email body) = true
  /\ exists exam c,
       db_get (active_exam_with_code
                 (JS.toUpperCase (StartReq.exam_code body))) (exams db1)
       = Some exam
       /\ existingCandidate db1 exam (email_key (StartReq.email body)) = None
       /\ db_get (session_of (Exam.id exam)
                    (email_key (StartReq.email body)) 0) (candidates db1)
          = Some c
       /\ (db1, sess1, StartOk r)
          = start_respond db1 exam c (Candidate.session_token c).
Proof.
  unfold start.
  destruct (JS.truthy_string (StartReq.name body)); simpl; [|discriminate].
  destruct (JS.truthy_string (StartReq.email body)); simpl; [|discriminate].
  destruct (JS.truthy_string (StartReq.exam_code body)); simpl;
    [|discriminate].
  destruct (JS.emailRegex_test (StartReq.email body)); simpl; [|discriminate].
  set (key := email_key (StartReq.email body)).
  destruct (db_get _ (exams db)) as [exam|] eqn:He; [|discriminate].
  destruct (existingCandidate db exam key) eqn:Hdup; [discriminate|].
  destruct (db_get (session_of (Exam.id exam) key 0) (candidates db))
    as [ongoing|] eqn:Hon.
  - intros H. assert (db1 = db) by (unfold start_respond in H; congruence).
    subst db1. repeat split; trivial. exists exam, ongoing. auto.
  - destruct (insert_candidate db _ key (Exam.id exam) uuid now _)
      as [db'|] eqn:Hins; [|discriminate].
    unfold insert_candidate in Hins.
    destruct (existsb (with_token uuid) (candidates db)) eqn:Hfresh;
      [discriminate|].
    injection Hins as <-. simpl.
    rewrite db_get_app, (db_get_existsb _ _ Hfresh). simpl.
    unfold with_token at 1. simpl. rewrite String.eqb_refl.
    intros H.
    match type of H with
    | start_respond ?d _ ?c _ = _ =>
        assert (Hdb : db1 = d) by (unfold start_respond in H; congruence);
        set (new := c) in *
    end.
    subst db1. repeat split; trivial. exists exam, new. simpl.
    split; [exact He|]. split; [|split].
    + unfold existingCandidate in *. simpl.
      destruct (JS.truthy_Z (Exam.prevent_duplicate_attempts exam));
        [|reflexivity].
      rewrite db_get_app, Hdup. simpl.
      unfold session_of. simpl. now rewrite andb_false_r.
    + rewrite db_get_app, Hon. simpl.
      unfold session_of. simpl.
      now rewrite Z.eqb_refl, String.eqb_refl.
    + now rewrite <- H.
Qed.

(** C4.  After a [POST /start] that succeeded, a second one for the same
    exam code and the same email (both compared after normalization:
    uppercased code, trimmed and lowercased email), whatever fresh token
    and time it is offered, answers exactly as the first did -- same
    session token, same start time -- and changes nothing in the store:
    the unsubmitted session of that (exam, email) pair is resumed, not
    recreated. *)
Theorem start_again_resumes
  (db : database) (sess : session) (body : StartReq.body) (uuid : string)
  (now : datetime) (db1 : database) (sess1 : session) (r : StartRes.t)
  (sess' : session) (body' : StartReq.body) (uuid' : string)
  (now' : datetime) :
  start db sess body uuid now = (db1, sess1, StartOk r) ->
  StartReq.name body' <> EmptyString ->
  JS.emailRegex_test (StartReq.email body') = true ->
  email_key (StartReq.email body') = email_key (StartReq.email body) ->
  JS.toUpperCase (StartReq.exam_code body')
  = JS.toUpperCase (StartReq.exam_code body) ->
  start db1 sess' body' uuid' now' = (db1, sess1, StartOk r)
  /\ exists c,
       In c (candidates db1)
       /\ Candidate.is_submitted c = 0
       /\ Candidate.email c = email_key (StartReq.email body)
       /\ Candidate.session_token c = StartRes.sessionToken r
       /\ Candidate.start_time c = StartRes.startTime r
       /\ candidateId sess1 = Some (Candidate.id c).
Proof.
  intros Hfirst Hname Hre Hkey Hcode.
  destruct (start_ok_inv _ _ _ _ _ _ _ _ Hfirst)
    as (_ & Hc & _ & exam & c & He & Hdup & Hon & Hres).
  split.
  - rewrite Hres.
    apply start_resume; rewrite ?Hkey, ?Hcode; trivial.
    + now apply truthy_string_nonempty.
    + apply truthy_string_nonempty. intros Hempty.
      rewrite Hempty in Hcode. symmetry in Hcode.
      apply toUpperCase_empty in Hcode.
      now apply truthy_string_true in Hc.
  - exists c. destruct (db_get_selected _ _ _ Hon) as [Hin Hsel].
    unfold session_of in Hsel. rewrite !andb_true_iff in Hsel.
    destruct Hsel as [[_ Hmail] Hsub].
    apply String.eqb_eq in Hmail. apply Z.eqb_eq in Hsub.
    unfold start_respond in Hres. injection Hres as -> ->. simpl.
    repeat split; trivial.
Qed.

(** Under the UNIQUE constraint a code names one exam. *)
Lemma exam_code_names_one (db : database) (e1 e2 : Exam.t) :
  exam_code_unique db ->
  In e1 (exams db) -> In e2 (exams db) ->
  Exam.exam_code e1 = Exam.exam_code e2 -> e1 = e2.
Proof.
  unfold exam_code_unique. induction (exams db) as [|e l IH]; simpl.
  - intros _ [].
  - intros Hnd H1 H2 Hcode. apply NoDup_cons_iff in Hnd.
    destruct Hnd as [Hnotin Hnd].
    destruct H1 as [-> | H1], H2 as [-> | H2]; auto.
    + exfalso. apply Hnotin. rewrite Hcode. now apply in_map.
    + exfalso. apply Hnotin. rewrite <- Hcode. now apply in_map.
Qed.

(** Whatever else the request carries, and whether or not the exam is
    active, a request for an exam whose flag is set under an email that
    has a submitted session of it is refused and creates no session. *)
Lemma start_creates_no_duplicate
  (db : database) (sess : session) (body : StartReq.body) (uuid : string)
  (now : datetime) (exam : Exam.t) (prior : Candidate.t) :
  exam_code_unique db ->
  In exam (exams db) ->
  Exam.exam_code exam = JS.toUpperCase (StartReq.exam_code body) ->
  Exam.prevent_duplicate_attempts exam <> 0 ->
  In prior (candidates db) ->
  Candidate.exam_id prior = Exam.id exam ->
  Candidate.email prior = email_key (StartReq.email body) ->
  Candidate.is_submitted prior = 1 ->
  fst (start db sess body uuid now) = (db, sess)
  /\ forall r, snd (start db sess body uuid now) <> StartOk r.
Proof.
  intros Huniq Hexam Hcode Hflag Hin Hid Hmail Hsub. unfold start.
  destruct (_ || _ || _); simpl; [split; [reflexivity | discriminate]|].
  destruct (negb _); simpl; [split; [reflexivity | discriminate]|].
  destruct (db_get _ (exams db)) as [found|] eqn:Hfound;
    [|split; [reflexivity | discriminate]].
  destruct (db_get_selected _ _ _ Hfound) as [Hfin Hsel].
  unfold active_exam_with_code in Hsel. apply andb_true_iff in Hsel.
  destruct Hsel as [Hsame _]. apply String.eqb_eq in Hsame.
  assert (found = exam)
    by (apply (exam_code_names_one db); congruence).
  subst found.
  unfold existingCandidate, JS.truthy_Z.
  apply Z.eqb_neq in Hflag. rewrite Hflag. simpl.
  destruct (db_get_exists
              (session_of (Exam.id exam) (email_key (StartReq.email body)) 1)
              (candidates db) prior Hin) as [dup Hdup].
  { unfold session_of.
    now rewrite Hid, Hmail, Hsub, Z.eqb_refl, String.eqb_refl. }
  rewrite Hdup. split; [reflexivity | discriminate].
Qed.

(** C5.  For a well-formed request naming an active exam whose
    duplicate-prevention flag is set, when a submitted session of that exam
    is stored under the request's email, trimmed and lowercased, the
    request fails with DuplicateAttempt and nothing changes: no session is
    created and the browser session is left as it was. *)
Theorem duplicate_attempt_refused
  (db : database) (sess : session) (body : StartReq.body) (uuid : string)
  (now : datetime) (exam : Exam.t) (prior : Candidate.t) :
  StartReq.name body <> EmptyString ->
  StartReq.exam_code body <> EmptyString ->
  JS.emailRegex_test (StartReq.email body) = true ->
  db_get (active_exam_with_code (JS.toUpperCase (StartReq.exam_code body)))
         (exams db) = Some exam ->
  Exam.prevent_duplicate_attempts exam <> 0 ->
  In prior (candidates db) ->
  Candidate.exam_id prior = Exam.id exam ->
  Candidate.email prior = JS.toLowerCase (JS.trim (StartReq.email body)) ->
  Candidate.is_submitted prior = 1 ->
  start db sess body uuid now = (db, sess, DuplicateAttempt).
Proof.
  intros Hn Hc Hre He Hflag Hin Hexam Hmail Hsub. unfold start.
  rewrite (truthy_string_nonempty _ Hn), (truthy_string_nonempty _ Hc),
    (emailRegex_nonempty _ Hre), Hre. simpl. rewrite He.
  unfold existingCandidate, JS.truthy_Z.
  apply Z.eqb_neq in Hflag. rewrite Hflag. simpl.
  destruct (db_get_exists
              (session_of (Exam.id exam) (email_key (StartReq.email body)) 1)
              (candidates db) prior Hin) as [found Hfound].
  { unfold session_of, email_key.
    now rewrite Hexam, Hmail, Hsub, Z.eqb_refl, String.eqb_refl. }
  now rewrite Hfound.
Qed.

(** ** [GET /result/:sessionToken]: who may see a result *)

(** A primary key selects the row that carries it, alone. *)
Lemma exam_id_selects_one (l : list Exam.t) (e : Exam.t) :
  NoDup (map Exam.id l) -> In e l ->
  db_all (exam_with_id (Exam.id e)) l = [e].
Proof.
  unfold db_all, exam_with_id.
  induction l as [|x l IH]; simpl; [intros _ []|].
  intros Hnd Hin. apply NoDup_cons_iff in Hnd. destruct Hnd as [Hnotin Hnd].
  destruct Hin as [-> | Hin].
  - rewrite Z.eqb_refl. f_equal.
    apply (db_get_none_all (fun x => Exam.id x =? Exam.id e)).
    apply db_get_all_false. intros y Hy. apply Z.eqb_neq. intros Heq.
    apply Hnotin. rewrite <- Heq. now apply in_map.
  - destruct (Exam.id x =? Exam.id e) eqn:Hx; [|auto].
    exfalso. apply Z.eqb_eq in Hx. apply Hnotin. rewrite Hx. now apply in_map.
Qed.

(** Under the constraints of the schema (UNIQUE [session_token], primary
    key [exams.id]) the query of the handler finds a session by its token
    together with the exam it references. *)
Lemma result_lookup (db : database) (c : Candidate.t) (e : Exam.t) :
  NoDup (map Candidate.session_token (candidates db)) ->
  NoDup (map Exam.id (exams db)) ->
  In c (candidates db) -> In e (exams db) ->
  Candidate.exam_id c = Exam.id e ->
  db_get (joined_with_token (Candidate.session_token c))
         (candidates_join_exams db)
  = Some (c, e).
Proof.
  unfold candidates_join_exams. intros Htok Hid Hc He Href.
  induction (candidates db) as [|c0 cs IH]; simpl; [destruct Hc|].
  apply NoDup_cons_iff in Htok. destruct Htok as [Hnotin Htok].
  rewrite db_get_app. destruct Hc as [-> | Hc].
  - rewrite Href, (exam_id_selects_one _ _ Hid He). simpl.
    unfold joined_with_token, with_token. simpl.
    now rewrite String.eqb_refl.
  - rewrite db_get_all_false; [now apply IH|].
    intros [c1 e1] Hin. apply in_map_iff in Hin.
    destruct Hin as (e2 & [= <- <-] & _).
    unfold joined_with_token, with_token. simpl.
    apply String.eqb_neq. intros Heq. apply Hnotin. rewrite Heq.
    now apply in_map.
Qed.

Lemma db_all_map {A : Type} (where_ : A -> bool) (f : A -> A) (l : list A) :
  (forall x, where_ (f x) = where_ x) ->
  db_all where_ (map f l) = map f (db_all where_ l).
Proof.
  intros Hkeep. unfold db_all.
  induction l as [|x l IH]; simpl; [reflexivity|].
  rewrite Hkeep. destruct (where_ x); simpl; now rewrite IH.
Qed.

Lemma db_get_map {A : Type} (where_ : A -> bool) (f : A -> A) (l : list A) :
  (forall x, where_ (f x) = where_ x) ->
  db_get where_ (map f l) = option_map f (db_get where_ l).
Proof.
  intros Hkeep. unfold db_get.
  induction l as [|x l IH]; simpl; [reflexivity|].
  rewrite Hkeep. destruct (where_ x); [reflexivity | exact IH].
Qed.

(** The join after an UPDATE of [exams] that keeps the ids. *)
Lemma join_after_exam_update (db : database) (f : Exam.t -> Exam.t) :
  (forall e, Exam.id (f e) = Exam.id e) ->
  candidates_join_exams (with_exams db (map f (exams db)))
  = map (fun ce => (fst ce, f (snd ce))) (candidates_join_exams db).
Proof.
  intros Hid. unfold candidates_join_exams. simpl.
  induction (candidates db) as [|c cs IH]; simpl; [reflexivity|].
  rewrite map_app, IH. f_equal.
  rewrite db_all_map, !map_map; [reflexivity|].
  intros e. unfold exam_with_id. now rewrite Hid.
Qed.

(** Once the operator publishes the results of an 'after_publish' exam,
    a finalized session of it is visible, with the score fields its row
    holds. *)
Lemma publish_makes_visible
  (db : database) (token : string) (candidate : Candidate.t) (exam : Exam.t) :
  db_get (joined_with_token token) (candidates_join_exams db)
  = Some (candidate, exam) ->
  Candidate.is_submitted candidate <> 0 ->
  Exam.result_mode exam = "after_publish"%string ->
  result (publish_results db (Exam.id exam)) token
  = CanView (result_view candidate exam).
Proof.
  intros Hget Hsub Hmode. unfold result, publish_results, db_update.
  rewrite join_after_exam_update
    by (intros e; destruct (exam_with_id (Exam.id exam) e); reflexivity).
  rewrite db_get_map by reflexivity.
  rewrite Hget. simpl. unfold exam_with_id. rewrite Z.eqb_refl.
  unfold JS.truthy_Z. apply Z.eqb_neq in Hsub. rewrite Hsub. simpl.
  rewrite Hmode. reflexivity.
Qed.

(** C6.  For the session and exam the token selects: if the session is
    not submitted the request fails with NotSubmitted; if it is, the
    outcome depends on the exam's result mode alone -- visible under
    'private' and under 'public'; under 'after_publish' visible exactly
    when results_published is 1 and otherwise hidden with the
    will-be-published message; hidden under 'admin_only'. *)
Theorem result_visibility
  (db : database) (token : string) (candidate : Candidate.t) (exam : Exam.t) :
  db_get (joined_with_token token) (candidates_join_exams db)
  = Some (candidate, exam) ->
  (Candidate.is_submitted candidate = 0 -> result db token = NotSubmitted)
  /\ (Candidate.is_submitted candidate <> 0 ->
      (Exam.result_mode exam = "private"%string
       \/ Exam.result_mode exam = "public"%string ->
       result db token = CanView (result_view candidate exam))
      /\ (Exam.result_mode exam = "after_publish"%string ->
          (Exam.results_published exam = 1 ->
           result db token = CanView (result_view candidate exam))
          /\ (Exam.results_published exam <> 1 ->
              result db token
              = CannotView "Results will be published by the administrator"))
      /\ (Exam.result_mode exam = "admin_only"%string ->
          result db token
          = CannotView "Results are only visible to the administrator")).
Proof.
  intros Hget. unfold result. rewrite Hget. split.
  - intros ->. reflexivity.
  - intros Hsub. unfold JS.truthy_Z.
    apply Z.eqb_neq in Hsub. rewrite Hsub. simpl.
    split; [|split].
    + intros [-> | ->]; reflexivity.
    + intros ->. simpl. split.
      * intros ->. reflexivity.
      * intros Hpub. apply Z.eqb_neq in Hpub. rewrite Hpub. reflexivity.
    + intros ->. reflexivity.
Qed.

(** ** [GET /leaderboard/:examCode]: order and ranks *)

Lemma precedes_listed_before (a b : Candidate.t) :
  precedes a b = true <-> listed_before a b.
Proof.
  unfold precedes, order_compare, listed_before.
  destruct (Candidate.score a) as [sa|], (Candidate.score b) as [sb|];
    simpl;
    try (destruct (Qcompare_spec sb sa) as [Hs|Hs|Hs]);
    destruct (Candidate.end_time a) as [ta|],
             (Candidate.end_time b) as [tb|];
    simpl;
    try (destruct (Z.compare_spec ta tb) as [Ht|Ht|Ht]);
    split; intros H; try reflexivity; try discriminate;
    try solve [intuition (try lra; try lia)].
Qed.

Lemma listed_before_total (a b : Candidate.t) :
  listed_before a b \/ listed_before b a.
Proof.
  unfold listed_before.
  destruct (Candidate.score a) as [sa|], (Candidate.score b) as [sb|];
    simpl;
    try (destruct (Qcompare_spec sb sa) as [Hs|Hs|Hs]);
    destruct (Candidate.end_time a) as [ta|],
             (Candidate.end_time b) as [tb|];
    simpl;
    try (destruct (Z.compare_spec ta tb) as [Ht|Ht|Ht]);
    try solve [intuition (try lra; try lia)].
Qed.

Lemma listed_before_trans (a b c : Candidate.t) :
  listed_before a b -> listed_before b c -> listed_before a c.
Proof.
  unfold listed_before.
  destruct (Candidate.score a) as [sa|], (Candidate.score b) as [sb|],
           (Candidate.score c) as [sc|];
    destruct (Candidate.end_time a) as [ta|],
             (Candidate.end_time b) as [tb|],
             (Candidate.end_time c) as [tc|];
    simpl; intros Hab Hbc;
    try solve [intuition (try lra; try lia)].
Qed.

Lemma insert_row_perm (x : Candidate.t) (rows : list Candidate.t) :
  Permutation (insert_row x rows) (x :: rows).
Proof.
  induction rows as [|y rows IH]; simpl; [reflexivity|].
  destruct (precedes x y); [reflexivity|].
  rewrite IH. apply perm_swap.
Qed.

Lemma ORDER_BY_perm (rows : list Candidate.t) :
  Permutation (ORDER_BY rows) rows.
Proof.
  unfold ORDER_BY. induction rows as [|x rows IH]; simpl; [reflexivity|].
  rewrite insert_row_perm. now constructor.
Qed.

Lemma insert_row_sorted (x : Candidate.t) (rows : list Candidate.t) :
  StronglySorted listed_before rows ->
  StronglySorted listed_before (insert_row x rows).
Proof.
  induction rows as [|y rows IH]; simpl; intros Hs.
  - repeat constructor.
  - apply StronglySorted_inv in Hs. destruct Hs as [Hrows Hy].
    destruct (precedes x y) eqn:Hxy.
    + apply precedes_listed_before in Hxy.
      constructor; [constructor; assumption|].
      constructor; [exact Hxy|].
      eapply Forall_impl; [|exact Hy].
      intros z Hyz. exact (listed_before_trans _ _ _ Hxy Hyz).
    + assert (Hyx : listed_before y x).
      { destruct (listed_before_total x y) as [H|H]; [|exact H].
        apply precedes_listed_before in H. congruence. }
      constructor; [apply IH, Hrows|].
      apply (Permutation_Forall (Permutation_sym (insert_row_perm x rows))).
      constructor; assumption.
Qed.

Lemma ORDER_BY_sorted (rows : list Candidate.t) :
  StronglySorted listed_before (ORDER_BY rows).
Proof.
  unfold ORDER_BY. induction rows as [|x rows IH]; simpl.
  - constructor.
  - apply insert_row_sorted, IH.
Qed.

(** The ranks [index + 1] handed out from index [i] on. *)
Lemma map_index_ranks (rows : list Candidate.t) : forall i,
  map Entry.rank (map_index entry_of i rows)
  = map (fun n => i + Z.of_nat n) (seq 1 (List.length rows)).
Proof.
  induction rows as [|c rows IH]; intros i; simpl; [reflexivity|].
  rewrite IH, <- (seq_shift _ 1), map_map.
  f_equal. apply map_ext. intros n. lia.
Qed.

(** Entry by entry, the fields are those of the row at that place. *)
Lemma map_index_fields (rows : list Candidate.t) : forall i,
  map (fun e => (Entry.name e, Entry.score e, Entry.totalMarks e))
      (map_index entry_of i rows)
  = map (fun c => (Candidate.name c, Candidate.score c,
                   Candidate.total_marks c)) rows.
Proof.
  induction rows as [|c rows IH]; intros i; simpl; [reflexivity|].
  now rewrite IH.
Qed.

Lemma leaderboard_closed_false (exam : Exam.t) :
  leaderboard_closed exam = false <->
  (Exam.result_mode exam = "public"%string
   \/ (Exam.result_mode exam = "after_publish"%string
       /\ Exam.results_published exam <> 0)).
Proof.
  unfold leaderboard_closed, JS.truthy_Z.
  rewrite andb_false_iff, !negb_false_iff, andb_true_iff, negb_true_iff,
    !String.eqb_eq, Z.eqb_neq.
  reflexivity.
Qed.

(** C7.  For the exam an exam code selects, the leaderboard is served
    exactly when the result mode is 'public', or 'after_publish' with
    results_published set, and the request fails with
    LeaderboardUnavailable otherwise.  When served, its entries are the
    submitted sessions of the exam, each once, ordered by score descending
    with equal scores ordered by end_time ascending, and the ranks are
    1, 2, ..., N in that order: no gap and no rank given twice. *)
Theorem leaderboard_ranking
  (db : database) (examCode : string) (exam : Exam.t) :
  db_get (exam_with_code (JS.toUpperCase examCode)) (exams db) = Some exam ->
  let permitted :=
    Exam.result_mode exam = "public"%string
    \/ (Exam.result_mode exam = "after_publish"%string
        /\ Exam.results_published exam <> 0) in
  (~ permitted -> leaderboard db examCode = LeaderboardUnavailable)
  /\ (permitted ->
      exists rows entries,
        leaderboard db examCode = LeaderboardOk (Exam.title exam) entries
        /\ Permutation rows (submitted_sessions db (Exam.id exam))
        /\ StronglySorted listed_before rows
        /\ map (fun e => (Entry.name e, Entry.score e, Entry.totalMarks e))
               entries
           = map (fun c => (Candidate.name c, Candidate.score c,
                            Candidate.total_marks c)) rows
        /\ map Entry.rank entries
           = map Z.of_nat (seq 1 (List.length rows))).
Proof.
  intros Hget permitted. unfold leaderboard. rewrite Hget.
  pose proof (leaderboard_closed_false exam) as Hclosed.
  fold permitted in Hclosed. split.
  - intros Hno. destruct (leaderboard_closed exam); [reflexivity|].
    exfalso. apply Hno, Hclosed. reflexivity.
  - intros Hyes. apply Hclosed in Hyes. rewrite Hyes.
    exists (ORDER_BY (db_all (submitted_for (Exam.id exam)) (candidates db))).
    eexists. split; [reflexivity|].
    split; [apply ORDER_BY_perm|].
    split; [apply ORDER_BY_sorted|].
    split; [apply map_index_fields|].
    rewrite map_index_ranks. apply map_ext. intros n. lia.
Qed.

(** ** The percentage field *)

(** ** Binary64 rounding *)

Lemma pow2_pos (k : Z) : (0 < 2 ^ k)%Q.
Proof. apply Qpower_0_lt. reflexivity. Qed.

Lemma pow2_plus (n m : Z) : (2 ^ (n + m) == 2 ^ n * 2 ^ m)%Q.
Proof. apply Qpower_plus. discriminate. Qed.

Lemma pow2_le (n m : Z) : n <= m -> (2 ^ n <= 2 ^ m)%Q.
Proof.
  intros H. apply Qpower_le_compat_l; [exact H | discriminate].
Qed.

Lemma pow2_inject (n : Z) : 0 <= n -> (inject_Z (2 ^ n) == 2 ^ n)%Q.
Proof. intros H. now rewrite Zpower_Qpower. Qed.

Lemma log2_floor_spec (x : Q) :
  (0 < x)%Q ->
  (2 ^ JS.log2_floor x <= x /\ x < 2 ^ (JS.log2_floor x + 1))%Q.
Proof.
  intros Hx. destruct x as [n d]. unfold JS.log2_floor. cbn [Qnum Qden].
  assert (Hn : 0 < n) by (unfold Qlt in Hx; simpl in Hx; lia).
  pose proof (Z.log2_spec n Hn) as [Hn1 Hn2].
  pose proof (Z.log2_spec (Zpos d) (Pos2Z.is_pos d)) as [Hd1 Hd2].
  pose proof (Z.log2_nonneg n) as Hln.
  pose proof (Z.log2_nonneg (Zpos d)) as Hld.
  set (ln := Z.log2 n) in *. set (ld := Z.log2 (Zpos d)) in *.
  assert (Hq : (n # d == inject_Z n / inject_Z (Zpos d))%Q)
    by apply Qmake_Qdiv.
  assert (Hdpos : (0 < inject_Z (Zpos d))%Q) by reflexivity.
  assert (Hlo : (2 ^ (ln - ld - 1) < n # d)%Q).
  { rewrite Hq. apply Qlt_shift_div_l; [exact Hdpos|].
    apply Qlt_le_trans with (2 ^ (ln - ld - 1) * 2 ^ (ld + 1))%Q.
    - apply Qmult_lt_l; [apply pow2_pos|].
      rewrite <- pow2_inject by lia. rewrite <- Zlt_Qlt. exact Hd2.
    - rewrite <- pow2_plus. replace (ln - ld - 1 + (ld + 1)) with ln by lia.
      rewrite <- pow2_inject by lia. rewrite <- Zle_Qle. exact Hn1. }
  assert (Hhi : (n # d < 2 ^ (ln - ld + 1))%Q).
  { rewrite Hq. apply Qlt_shift_div_r; [exact Hdpos|].
    apply Qlt_le_trans with (2 ^ (ln - ld + 1) * 2 ^ ld)%Q.
    - rewrite <- pow2_plus. replace (ln - ld + 1 + ld) with (ln + 1) by lia.
      rewrite <- pow2_inject by lia. rewrite <- Zlt_Qlt. exact Hn2.
    - apply Qmult_le_l; [apply pow2_pos|].
      rewrite <- pow2_inject by lia. rewrite <- Zle_Qle. exact Hd1. }
  destruct (Qle_bool (2 ^ (ln - ld)) (n # d)) eqn:Htest.
  - apply Qle_bool_iff in Htest. split; assumption.
  - assert (Hlt : (n # d < 2 ^ (ln - ld))%Q).
    { apply Qnot_le_lt. intros H. apply Qle_bool_iff in H. congruence. }
    split.
    + apply Qlt_le_weak. exact Hlo.
    + replace (ln - ld - 1 + 1) with (ln - ld) by lia. exact Hlt.
Qed.

Lemma nearest_even_error (y : Q) :
  (Qabs (inject_Z (JS.nearest_even y) - y) <= 1 # 2)%Q.
Proof.
  unfold JS.nearest_even.
  pose proof (Qfloor_le y) as Hlo. pose proof (Qlt_floor y) as Hhi.
  rewrite inject_Z_plus in Hhi. change (inject_Z 1) with 1%Q in Hhi.
  apply Qabs_Qle_condition.
  destruct (Qcompare_spec (y - inject_Z (Qfloor y)) (1 # 2)) as [H|H|H].
  - destruct (Z.even (Qfloor y));
      [|rewrite inject_Z_plus; change (inject_Z 1) with 1%Q]; split; lra.
  - split; lra.
  - rewrite inject_Z_plus. change (inject_Z 1) with 1%Q. split; lra.
Qed.

Lemma nearest_even_nonneg (y : Q) : (0 <= y)%Q -> 0 <= JS.nearest_even y.
Proof.
  intros Hy. unfold JS.nearest_even.
  assert (H0 : 0 <= Qfloor y).
  { change 0 with (Qfloor 0). apply Qfloor_resp_le. exact Hy. }
  destruct (_ ?= _)%Q; [destruct (Z.even _)| |]; lia.
Qed.

Lemma nearest_even_comp (x y : Q) :
  (x == y)%Q -> JS.nearest_even x = JS.nearest_even y.
Proof.
  intros H. unfold JS.nearest_even.
  rewrite (Qfloor_comp _ _ H).
  assert (Hc : (x - inject_Z (Qfloor y) ?= 1 # 2)%Q
               = (y - inject_Z (Qfloor y) ?= 1 # 2)%Q)
    by (apply Qcompare_comp; [rewrite H|]; reflexivity).
  rewrite Hc. reflexivity.
Qed.

(** The unit in the last place is at most [2^-52] times the magnitude,
    or times [2^-1022] below the normal range. *)
Lemma ulp_exponent_bound (x : Q) :
  (0 < x)%Q ->
  (2 ^ JS.ulp_exponent x <= 2 ^ (-52) * Qmax x (2 ^ (-1022)))%Q.
Proof.
  intros Hx. unfold JS.ulp_exponent.
  destruct (log2_floor_spec x Hx) as [Hlo _].
  assert (Hu : (0 < 2 ^ (-52))%Q) by apply pow2_pos.
  destruct (Z.max_spec (-1074) (JS.log2_floor x - 52)) as [[_ ->]|[_ ->]].
  - replace (JS.log2_floor x - 52) with (-52 + JS.log2_floor x) by lia.
    rewrite pow2_plus. apply Qmult_le_l; [exact Hu|].
    eapply Qle_trans; [exact Hlo | apply Q.le_max_l].
  - change (-1074) with (-52 + -1022). rewrite pow2_plus.
    apply Qmult_le_l; [exact Hu | apply Q.le_max_r].
Qed.

(** Rounding a magnitude that does not overflow: the result is within
    half a unit in the last place. *)
Lemma round_magnitude_spec (x : Q) :
  (0 <= x)%Q -> (x <= 2 ^ 1023)%Q ->
  exists y,
    JS.round_magnitude x = Some y
    /\ (0 <= y)%Q
    /\ (Qabs (y - x) <= 2 ^ (-53) * Qmax x (2 ^ (-1022)))%Q.
Proof.
  intros H0 Hmax. unfold JS.round_magnitude.
  set (e := JS.ulp_exponent x).
  set (m := JS.nearest_even (x / 2 ^ e)).
  assert (He : (0 < 2 ^ e)%Q) by apply pow2_pos.
  assert (Hm : 0 <= m).
  { apply nearest_even_nonneg. apply Qle_shift_div_l; [exact He|]. lra. }
  assert (Hy0 : (0 <= inject_Z m * 2 ^ e)%Q).
  { apply Qmult_le_0_compat; [|lra].
    change 0%Q with (inject_Z 0). rewrite <- Zle_Qle. exact Hm. }
  assert (Herr : (Qabs (inject_Z m * 2 ^ e - x) <= (1 # 2) * 2 ^ e)%Q).
  { assert (Heq : (inject_Z m * 2 ^ e - x
                   == (inject_Z m - x / 2 ^ e) * 2 ^ e)%Q)
      by (field; lra).
    rewrite Heq, Qabs_Qmult, (Qabs_pos (2 ^ e)) by lra.
    apply Qmult_le_compat_r; [apply nearest_even_error | lra]. }
  assert (Hbound :
    (Qabs (inject_Z m * 2 ^ e - x) <= 2 ^ (-53) * Qmax x (2 ^ (-1022)))%Q).
  { destruct (Qlt_le_dec 0 x) as [Hpos|Hzero].
    - eapply Qle_trans; [exact Herr|].
      pose proof (ulp_exponent_bound x Hpos) as Hulp. fold e in Hulp.
      assert (H53 : (2 ^ (-53) == (1 # 2) * 2 ^ (-52))%Q) by reflexivity.
      rewrite H53. rewrite <- Qmult_assoc.
      apply Qmult_le_l; [reflexivity | exact Hulp].
    - assert (Hx : (x == 0)%Q) by lra.
      assert (Hm0 : m = 0).
      { unfold m. rewrite (nearest_even_comp _ 0); [reflexivity|].
        rewrite Hx. unfold Qdiv. ring. }
      rewrite Hm0, Hx.
      setoid_replace (inject_Z 0 * 2 ^ e - 0)%Q with 0%Q by ring.
      apply Qmult_le_0_compat.
      + apply Qlt_le_weak, pow2_pos.
      + eapply Qle_trans; [|apply Q.le_max_r].
        apply Qlt_le_weak, pow2_pos. }
  assert (Hfin : Qle_bool (2 ^ 1024) (Qred (inject_Z m * 2 ^ e)) = false).
  { destruct (Qle_bool _ _) eqn:Hb; [|reflexivity]. exfalso.
    apply Qle_bool_iff in Hb. rewrite Qred_correct in Hb.
    apply Qabs_Qle_condition in Hbound.
    assert (Hmx : (Qmax x (2 ^ (-1022)) <= 2 ^ 1023)%Q).
    { apply Q.max_lub; [exact Hmax | apply pow2_le; lia]. }
    assert (H53 : (0 < 2 ^ (-53))%Q) by apply pow2_pos.
    assert (H1024 : (2 ^ 1024 == 2 ^ 1023 + 2 ^ 1023)%Q).
    { change 1024 with (1 + 1023). rewrite pow2_plus.
      change (2 ^ 1)%Q with 2%Q. ring. }
    assert (Hpos : (0 < 2 ^ 1023)%Q) by apply pow2_pos.
    assert (Hstrict : (2 ^ (-53) * Qmax x (2 ^ (-1022)) < 2 ^ 1023)%Q).
    { apply Qle_lt_trans with (2 ^ (-53) * 2 ^ 1023)%Q.
      - apply Qmult_le_l; [exact H53 | exact Hmx].
      - rewrite <- (Qmult_1_l (2 ^ 1023)) at 2.
        apply Qmult_lt_compat_r; [exact Hpos|].
        apply Qlt_le_trans with (2 ^ (-1))%Q; [|apply (pow2_le (-1) 0); lia].
        apply Qnot_le_lt. intros Hc.
        apply Qpower_le_compat_l_inv in Hc; [lia|reflexivity]. }
    generalize dependent (2 ^ 1023)%Q. generalize dependent (2 ^ 1024)%Q.
    generalize dependent (2 ^ (-53) * Qmax x (2 ^ (-1022)))%Q.
    generalize (inject_Z m * 2 ^ e)%Q. intros; lra. }
  rewrite Hfin. eexists. split; [reflexivity|].
  rewrite Qred_correct. split; assumption.
Qed.

(** In the normal range the rounding error is relative. *)
Lemma round_relative (x : Q) :
  (2 ^ (-1022) <= x)%Q -> (x <= 2 ^ 1023)%Q ->
  exists y,
    JS.round_magnitude x = Some y
    /\ ((1 - 2 ^ (-53)) * x <= y)%Q /\ (y <= (1 + 2 ^ (-53)) * x)%Q.
Proof.
  intros Hlo Hhi.
  assert (H0 : (0 <= x)%Q).
  { eapply Qle_trans; [|exact Hlo]. apply Qlt_le_weak, pow2_pos. }
  destruct (round_magnitude_spec x H0 Hhi) as (y & Hy & _ & Herr).
  exists y. split; [exact Hy|].
  rewrite (Q.max_l _ _ Hlo) in Herr.
  apply Qabs_Qle_condition in Herr. split; lra.
Qed.

(** Below it the result is still small. *)
Lemma round_small (x : Q) :
  (0 <= x)%Q -> (x <= 2 ^ 1023)%Q ->
  exists y,
    JS.round_magnitude x = Some y
    /\ (0 <= y)%Q /\ (y <= 2 * x + 2 ^ (-1022))%Q.
Proof.
  intros H0 Hhi.
  destruct (round_magnitude_spec x H0 Hhi) as (y & Hy & Hpos & Herr).
  exists y. split; [exact Hy|]. split; [exact Hpos|].
  apply Qabs_Qle_condition in Herr.
  assert (Hc : (0 < 2 ^ (-1022))%Q) by apply pow2_pos.
  assert (Hmax : (Qmax x (2 ^ (-1022)) <= x + 2 ^ (-1022))%Q)
    by (apply Q.max_lub; lra).
  assert (Hu : (2 ^ (-53) * Qmax x (2 ^ (-1022))
                <= 1 * (x + 2 ^ (-1022)))%Q).
  { apply Qmult_le_compat_nonneg; split.
    - apply Qlt_le_weak, pow2_pos.
    - apply (pow2_le (-53) 0). lia.
    - eapply Qle_trans; [exact H0 | apply Q.le_max_l].
    - exact Hmax. }
  lra.
Qed.

Lemma Qmult_le_compat_l' (x y z : Q) :
  (x <= y)%Q -> (0 <= z)%Q -> (z * x <= z * y)%Q.
Proof.
  intros H Hz. rewrite (Qmult_comm z x), (Qmult_comm z y).
  now apply Qmult_le_compat_r.
Qed.

(** Relative errors of a quotient. *)
Lemma quotient_relative (u a t s1 t1 : Q) :
  (0 < u)%Q -> (u < 1)%Q -> (0 <= a)%Q -> (0 < t)%Q ->
  ((1 - u) * a <= s1)%Q -> (s1 <= (1 + u) * a)%Q ->
  ((1 - u) * t <= t1)%Q -> (t1 <= (1 + u) * t)%Q ->
  ((1 - u) / (1 + u) * (a / t) <= s1 / t1)%Q
  /\ (s1 / t1 <= (1 + u) / (1 - u) * (a / t))%Q.
Proof.
  intros Hu0 Hu1 Ha Ht Hs1 Hs2 Ht1 Ht2.
  assert (Ht1pos : (0 < t1)%Q).
  { eapply Qlt_le_trans; [|exact Ht1].
    apply Qmult_lt_0_compat; lra. }
  set (r := (a / t)%Q).
  assert (Hr : (0 <= r)%Q) by (apply Qle_shift_div_l; lra).
  assert (Har : (a == r * t)%Q) by (unfold r; field; lra).
  assert (Hk1 : (0 <= (1 - u) / (1 + u) * r)%Q).
  { apply Qmult_le_0_compat; [|exact Hr]. apply Qle_shift_div_l; lra. }
  assert (Hk2 : (0 <= (1 + u) / (1 - u) * r)%Q).
  { apply Qmult_le_0_compat; [|exact Hr]. apply Qle_shift_div_l; lra. }
  split.
  - apply Qle_shift_div_l; [exact Ht1pos|].
    apply Qle_trans with ((1 - u) / (1 + u) * r * ((1 + u) * t))%Q.
    + apply Qmult_le_compat_l'; assumption.
    + setoid_replace ((1 - u) / (1 + u) * r * ((1 + u) * t))%Q
        with ((1 - u) * (r * t))%Q by (field; lra).
      rewrite <- Har. exact Hs1.
  - apply Qle_shift_div_r; [exact Ht1pos|].
    apply Qle_trans with ((1 + u) / (1 - u) * r * ((1 - u) * t))%Q.
    + setoid_replace ((1 + u) / (1 - u) * r * ((1 - u) * t))%Q
        with ((1 + u) * (r * t))%Q by (field; lra).
      rewrite <- Har. exact Hs2.
    + apply Qmult_le_compat_l'; assumption.
Qed.

Lemma quotient_relative' (u a t s1 t1 : Q) :
  (0 < u)%Q -> (u <= 1 # 3)%Q -> (0 <= a)%Q -> (0 < t)%Q ->
  ((1 - u) * a <= s1)%Q -> (s1 <= (1 + u) * a)%Q ->
  ((1 - u) * t <= t1)%Q -> (t1 <= (1 + u) * t)%Q ->
  ((1 - 2 * u) * (a / t) <= s1 / t1)%Q
  /\ (s1 / t1 <= (1 + 3 * u) * (a / t))%Q.
Proof.
  intros Hu0 Hu1 Ha Ht Hs1 Hs2 Ht1 Ht2.
  destruct (quotient_relative u a t s1 t1) as [Hlo Hhi];
    try assumption; [lra|].
  assert (Hr : (0 <= a / t)%Q) by (apply Qle_shift_div_l; lra).
  assert (Hsq : (0 <= u * u)%Q) by (apply Qmult_le_0_compat; lra).
  assert (Hk1 : (1 - 2 * u <= (1 - u) / (1 + u))%Q).
  { apply Qle_shift_div_l; [lra|].
    setoid_replace ((1 - 2 * u) * (1 + u))%Q
      with (1 - u - 2 * (u * u))%Q by ring. lra. }
  assert (Hk2 : ((1 + u) / (1 - u) <= 1 + 3 * u)%Q).
  { apply Qle_shift_div_r; [lra|].
    setoid_replace ((1 + 3 * u) * (1 - u))%Q
      with (1 + u + (u - 3 * (u * u)))%Q by ring.
    assert (H3 : (3 * (u * u) <= u)%Q).
    { setoid_replace (3 * (u * u))%Q with ((3 * u) * u)%Q by ring.
      rewrite <- (Qmult_1_l u) at 3. apply Qmult_le_compat_r; lra. }
    lra. }
  split.
  - eapply Qle_trans; [|exact Hlo]. apply Qmult_le_compat_r; assumption.
  - eapply Qle_trans; [exact Hhi|]. apply Qmult_le_compat_r; assumption.
Qed.

Lemma Qfloor_0 (x : Q) : (0 <= x)%Q -> (x < 1)%Q -> Qfloor x = 0.
Proof.
  intros H0 H1.
  assert (Hlo : 0 <= Qfloor x)
    by (change 0 with (Qfloor 0); now apply Qfloor_resp_le).
  assert (Hhi : Qfloor x < 1).
  { rewrite Zlt_Qlt. eapply Qle_lt_trans; [apply Qfloor_le | exact H1]. }
  lia.
Qed.

(** The magnitude of [score / total_marks * 100] as the routes compute
    it, and the hundredths [toFixed(2)] prints for it. *)
Lemma percent_magnitude (a : Q) (t : Z) :
  (0 <= a)%Q -> 1 <= t <= 2 ^ 63 -> (a <= 10 ^ 18 * inject_Z t)%Q ->
  exists s1 t1 q p,
    JS.round_magnitude a = Some s1
    /\ JS.round_magnitude (inject_Z t) = Some t1
    /\ (0 < t1)%Q
    /\ JS.round_magnitude (s1 / t1) = Some q
    /\ JS.round_magnitude (q * 100) = Some p
    /\ (p < 10 ^ 21)%Q
    /\ (Qabs (inject_Z (Qfloor (p * 100 + (1 # 2)))
              - a / inject_Z t * 100 * 100)
        <= (1 # 2) + 2 ^ (-50) * (a / inject_Z t * 100 * 100))%Q.
Proof.
  intros Ha [Ht1 Ht2] Hat.
  set (T := inject_Z t) in *.
  assert (HT1 : (1 <= T)%Q)
    by (unfold T; change 1%Q with (inject_Z 1); now rewrite <- Zle_Qle).
  assert (HT2 : (T <= 9223372036854775808)%Q).
  { unfold T. change 9223372036854775808%Q with (inject_Z (2 ^ 63)).
    now rewrite <- Zle_Qle. }
  change (10 ^ 18)%Q with 1000000000000000000%Q in Hat.
  change (10 ^ 21)%Q with 1000000000000000000000%Q.
  change (2 ^ (-50))%Q with (1 # 1125899906842624)%Q.
  (* constants of the format *)
  assert (Hc : (0 < 2 ^ (-1022))%Q) by apply pow2_pos.
  assert (Hc' : (2 ^ (-1022) <= 2 ^ (-1001))%Q) by (apply pow2_le; lia).
  assert (Hd : (0 < 2 ^ (-1001))%Q) by apply pow2_pos.
  assert (Hd' : (2 ^ (-1000) == 2 * 2 ^ (-1001))%Q).
  { change (-1000) with (1 + -1001). rewrite pow2_plus. reflexivity. }
  assert (Hd2 : (2 ^ (-1001) <= 2 ^ (-937))%Q) by (apply pow2_le; lia).
  assert (Hd3 : (2 ^ (-937) <= 2 ^ (-40))%Q) by (apply pow2_le; lia).
  assert (Hd4 : (2 ^ (-937) == 2 ^ (-1000) * 9223372036854775808)%Q).
  { change (-937) with (-1000 + 63). rewrite pow2_plus. reflexivity. }
  change (2 ^ (-40))%Q with (1 # 1099511627776)%Q in Hd3.
  assert (Hbig : (1000000000000000000000 <= 2 ^ 1023)%Q).
  { apply Qle_trans with (2 ^ 100)%Q; [|apply pow2_le; lia].
    apply Qle_bool_iff. reflexivity. }
  assert (Hbig' : (1000000000000000000 * 9223372036854775808
                   <= 2 ^ 1023)%Q).
  { apply Qle_trans with (2 ^ 200)%Q; [|apply pow2_le; lia].
    apply Qle_bool_iff. reflexivity. }
  set (r := (a / T)%Q).
  assert (Hr0 : (0 <= r)%Q) by (apply Qle_shift_div_l; lra).
  assert (Hr1 : (r <= 1000000000000000000)%Q)
    by (apply Qle_shift_div_r; lra).
  assert (Har : (a == r * T)%Q) by (unfold r; field; lra).
  assert (Ha2 : (a <= 2 ^ 1023)%Q).
  { eapply Qle_trans; [exact Hat|]. eapply Qle_trans; [|exact Hbig'].
    apply Qmult_le_compat_l'; lra. }
  (* the total *)
  destruct (round_relative T) as (t1 & Et1 & Ht1lo & Ht1hi);
    [lra | lra |].
  change (2 ^ (-53))%Q with (1 # 9007199254740992)%Q in Ht1lo, Ht1hi.
  assert (Ht1pos : (0 < t1)%Q) by lra.
  destruct (Qlt_le_dec r (2 ^ (-1000))) as [Hsmall|Hnormal].
  - (* everything underflows towards 0 *)
    assert (Ha3 : (a <= 2 ^ (-937))%Q).
    { rewrite Har, Hd4. apply Qmult_le_compat_nonneg; split; lra. }
    destruct (round_small a Ha Ha2) as (s1 & Es1 & Hs0 & Hs1).
    assert (Hw0 : (0 <= s1 / t1)%Q) by (apply Qle_shift_div_l; lra).
    assert (Hw1 : (s1 / t1 <= 2 * s1)%Q).
    { apply Qle_shift_div_r; [exact Ht1pos|].
      setoid_replace (2 * s1 * t1)%Q with (s1 * (2 * t1))%Q by ring.
      rewrite <- (Qmult_1_r s1) at 1.
      apply Qmult_le_compat_l'; lra. }
    destruct (round_small (s1 / t1)) as (q & Eq & Hq0 & Hq1); [lra|lra|].
    destruct (round_small (q * 100)) as (p & Ep & Hp0 & Hp1); [lra|lra|].
    exists s1, t1, q, p. repeat (split; [assumption|]).
    split; [lra|].
    rewrite (Qfloor_0 (p * 100 + (1 # 2))) by lra.
    fold r. apply Qabs_Qle_condition.
    change (inject_Z 0) with 0%Q. split; lra.
  - (* the normal range: four relative errors *)
    assert (Ha3 : (2 ^ (-1022) <= a)%Q).
    { rewrite Har. rewrite <- (Qmult_1_r (2 ^ (-1022))).
      apply Qmult_le_compat_nonneg; split; lra. }
    destruct (round_relative a Ha3 Ha2) as (s1 & Es1 & Hs1lo & Hs1hi).
    change (2 ^ (-53))%Q with (1 # 9007199254740992)%Q in Hs1lo, Hs1hi.
    destruct (quotient_relative' (1 # 9007199254740992) a T s1 t1)
      as [Hwlo Hwhi]; try assumption; try lra; try reflexivity.
    fold r in Hwlo, Hwhi.
    destruct (round_relative (s1 / t1)) as (q & Eq & Hqlo & Hqhi);
      [lra | lra |].
    change (2 ^ (-53))%Q with (1 # 9007199254740992)%Q in Hqlo, Hqhi.
    destruct (round_relative (q * 100)) as (p & Ep & Hplo & Hphi);
      [lra | lra |].
    change (2 ^ (-53))%Q with (1 # 9007199254740992)%Q in Hplo, Hphi.
    exists s1, t1, q, p. repeat (split; [assumption|]).
    split; [lra|].
    pose proof (Qfloor_le (p * 100 + (1 # 2))) as Hn1.
    pose proof (Qlt_floor (p * 100 + (1 # 2))) as Hn2.
    rewrite inject_Z_plus in Hn2. change (inject_Z 1) with 1%Q in Hn2.
    fold r. apply Qabs_Qle_condition. split; lra.
Qed.

(** A positive total read as a number. *)
Lemma of_Z_pos (t : Z) : 0 < t -> JS.of_Z t = JS.round false (inject_Z t).
Proof.
  intros Ht. destruct t as [|p|p]; try lia. reflexivity.
Qed.

(** The number [score / total_marks * 100] is finite with the sign of
    the score, and [toFixed(2)] prints it within the error of the
    arithmetic. *)
Lemma percentage_of_close (score : option Q) (total_marks : Z) :
  0 < total_marks <= 2 ^ 63 ->
  (Qabs (JS.num score) <= 10 ^ 18 * inject_Z total_marks)%Q ->
  exists h,
    percentage_of score total_marks = Fixed2 h
    /\ rounded_within (exact_percentage score total_marks) h.
Proof.
  intros Ht Hs. unfold percentage_of, exact_percentage, rounded_within.
  set (s := JS.num score) in *. set (T := inject_Z total_marks) in *.
  destruct (percent_magnitude (Qabs s) total_marks)
    as (s1 & t1 & q & p & Es1 & Et1 & Ht1 & Eq & Ep & Hp & Hclose);
    [apply Qabs_nonneg | lia | exact Hs |].
  fold T in Et1, Hclose.
  assert (Hpos : (0 <? total_marks) = true) by (apply Z.ltb_lt; lia).
  rewrite Hpos, of_Z_pos by lia.
  change (JS.of_Z 100) with (JS.Finite false 100).
  unfold JS.of_Q, JS.round at 1 2. fold T. rewrite Es1, Et1.
  cbn [JS.divide].
  assert (Ht0 : Qeq_bool t1 0 = false).
  { destruct (Qeq_bool t1 0) eqn:E; [|reflexivity].
    apply Qeq_bool_iff in E. lra. }
  rewrite Ht0. unfold JS.round at 1. rewrite Eq. cbn [JS.multiply].
  unfold JS.round. rewrite Ep. cbn [JS.toFixed2].
  assert (Hfix : Qle_bool (10 ^ 21) p = false).
  { destruct (Qle_bool (10 ^ 21) p) eqn:E; [|reflexivity].
    apply Qle_bool_iff in E. lra. }
  rewrite Hfix. eexists. split; [reflexivity|].
  set (n := Qfloor (p * 100 + (1 # 2))) in *.
  assert (HT : (0 < T)%Q).
  { unfold T. change 0%Q with (inject_Z 0). rewrite <- Zlt_Qlt. lia. }
  set (A := (Qabs s / T * 100 * 100)%Q) in *.
  assert (HA : (0 <= A)%Q).
  { unfold A. repeat (apply Qmult_le_0_compat; [|discriminate]).
    apply Qle_shift_div_l; [exact HT|]. rewrite Qmult_0_l.
    apply Qabs_nonneg. }
  apply Qabs_Qle_condition in Hclose.
  destruct (Qle_bool 0 s) eqn:Hsign; cbn [negb xorb].
  - apply Qle_bool_iff in Hsign.
    assert (Hx : (s / T * 100 * 100 == A)%Q)
      by (unfold A; now rewrite (Qabs_pos s Hsign)).
    rewrite Hx, (Qabs_pos A HA).
    apply Qabs_Qle_condition. split; lra.
  - assert (Hneg : (s <= 0)%Q).
    { apply Qlt_le_weak, Qnot_le_lt. intros H.
      apply Qle_bool_iff in H. congruence. }
    assert (Hx : (s / T * 100 * 100 == - A)%Q).
    { unfold A. rewrite (Qabs_neg s Hneg). field. lra. }
    rewrite Hx, Qabs_opp, (Qabs_pos A HA), inject_Z_opp.
    apply Qabs_Qle_condition. split; lra.
Qed.

(** Clear of the midpoints, the error of the arithmetic does not show. *)
Lemma rounded_within_exact (x : Q) (h k : Z) :
  rounded_within x h -> clear_of_midpoints x k -> h = k.
Proof.
  unfold rounded_within, clear_of_midpoints. intros Hh Hk.
  apply Qabs_Qle_condition in Hh. apply Qabs_Qlt_condition in Hk.
  assert (H1 : (inject_Z h < inject_Z (k + 1))%Q).
  { rewrite inject_Z_plus. change (inject_Z 1) with 1%Q. lra. }
  assert (H2 : (inject_Z k < inject_Z (h + 1))%Q).
  { rewrite inject_Z_plus. change (inject_Z 1) with 1%Q. lra. }
  rewrite <- Zlt_Qlt in H1, H2. lia.
Qed.

Lemma percentage_of_shown (score : option Q) (total_marks : Z) :
  shown_percentage score total_marks (percentage_of score total_marks).
Proof.
  unfold shown_percentage. split.
  - intros Ht Hs.
    destruct (percentage_of_close score total_marks Ht Hs) as (h & Hh & Hc).
    exists h. split; [exact Hh|]. split; [exact Hc|].
    intros k. now apply rounded_within_exact.
  - intros ->. reflexivity.
Qed.

Lemma map_index_percentages (rows : list Candidate.t) : forall i,
  Forall (fun e =>
            Entry.percentage e
            = percentage_of (Entry.score e) (Entry.totalMarks e))
         (map_index entry_of i rows).
Proof.
  induction rows as [|c rows IH]; intros i; simpl; constructor.
  - reflexivity.
  - apply IH.
Qed.

(** The arithmetic of this file yields the very values that the
    standard library's specification of binary64 division and
    multiplication yields: for every whole score up to the total, for
    the totals 1 to 30 and 160; for every score in quarter marks up to
    the total, for the totals 1 to 8; and for the stored score nearest
    to 2.9 out of 16. *)
Example percent_agrees_with_SpecFloat :
  sweep_agrees 0 1 30 = true
  /\ sweep_agrees 0 160 1 = true
  /\ sweep_agrees 2 1 8 = true
  /\ agrees_with_SpecFloat 6530219459687219 (-51) 16 = true.
Proof. split; [|split; [|split]]; vm_compute; reflexivity. Qed.

Example one_tenth_SpecFloat :
  JS.divide (JS.of_Z 1) (JS.of_Z 10)
  = JS.of_spec_float
      (SFdiv 53 1024 (binary_normalize 53 1024 1 0 false)
                     (binary_normalize 53 1024 10 0 false)).
Proof. vm_compute. reflexivity. Qed.

(** C8, as the specification words it, fails.  In the sample a visible
    result shows 14.37 for 23 marks of 160, whose exact percentage
    14.375 rounds to 14.38: the quotient 23 / 160 is already rounded to
    binary64, and 100 times it falls just below 14.375.  Another shows
    18.13 for the stored score nearest to 2.9 out of 16, whose exact
    percentage is below 18.125 and nearer to 18.12. *)
Lemma percentage_not_exactly_rounded :
  (exists r,
     result Sample.db4 "tok-e" = CanView r
     /\ ResultRes.score r = Some 23%Q
     /\ ResultRes.totalMarks r = 160
     /\ ResultRes.percentage r = Fixed2 1437
     /\ (exact_percentage (ResultRes.score r) (ResultRes.totalMarks r)
         == 14375 # 1000)%Q
     /\ rounded_to_2_decimals (14375 # 1000) 1438
     /\ ~ exactly_rounded_percentage (ResultRes.score r)
            (ResultRes.totalMarks r) (ResultRes.percentage r))
  /\ (exists r,
        result Sample.db4 "tok-f" = CanView r
        /\ ResultRes.totalMarks r = 16
        /\ ResultRes.percentage r = Fixed2 1813
        /\ (1 # 2
            < Qabs (exact_percentage (ResultRes.score r)
                      (ResultRes.totalMarks r) * 100 - 1813))%Q
        /\ ~ exactly_rounded_percentage (ResultRes.score r)
               (ResultRes.totalMarks r) (ResultRes.percentage r)).
Proof.
  split; eexists; (split; [vm_compute; reflexivity|]);
    cbn [ResultRes.score ResultRes.totalMarks ResultRes.percentage].
  - split; [reflexivity|]. split; [reflexivity|]. split; [reflexivity|].
    split; [reflexivity|]. split.
    + right. split; reflexivity.
    + intros [H _]. destruct (H eq_refl) as (h & [= <-] & [Hlt | [_ Hlt]]);
        vm_compute in Hlt; discriminate.
  - split; [reflexivity|]. split; [reflexivity|]. split; [reflexivity|].
    intros [H _]. destruct (H eq_refl) as (h & [= <-] & [Hlt | [Heq _]]);
      vm_compute in Hlt || vm_compute in Heq; discriminate.
Qed.

(** C8, amended.  A visible result and every leaderboard entry carry, as
    their percentage, what [toFixed(2)] prints for score / total_marks *
    100 computed in binary64 arithmetic.  For a total that fits an
    INTEGER column and a score of at most 10^18 times the total, that is
    the exact quotient rounded to two decimals within a relative error
    of 2^-50: the exactly rounded value whenever the quotient is clear
    of the midpoints between two hundredths by that error.  It is the
    number 0 when total_marks is 0; the computation is defined for every
    stored score and total. *)
Theorem percentage_exposed (db : database) :
  (forall token r,
     result db token = CanView r ->
     shown_percentage (ResultRes.score r) (ResultRes.totalMarks r)
                      (ResultRes.percentage r))
  /\ (forall examCode title entries,
        leaderboard db examCode = LeaderboardOk title entries ->
        Forall (fun e =>
                  shown_percentage (Entry.score e) (Entry.totalMarks e)
                                   (Entry.percentage e))
               entries).
Proof.
  split.
  - intros token r. unfold result.
    destruct (db_get _ _) as [[candidate exam]|]; [|discriminate].
    destruct (negb _); [discriminate|].
    destruct (if String.eqb (Exam.result_mode exam) "private" then _ else _)
      as [[|] message]; [|discriminate].
    intros [= <-].
    cbn [ResultRes.score ResultRes.totalMarks ResultRes.percentage].
    apply percentage_of_shown.
  - intros examCode title entries. unfold leaderboard.
    destruct (db_get _ _) as [exam|]; [|discriminate].
    destruct (leaderboard_closed exam); [discriminate|].
    intros [= _ <-].
    eapply Forall_impl; [|apply map_index_percentages].
    intros e ->. apply percentage_of_shown.
Qed.

(** ** The is_active flag *)

(** A lookup through an UPDATE that keeps the columns of the lookup's
    WHERE clause finds the updated image of the row it found before. *)
Lemma db_get_update {A : Type} (where_ sel : A -> bool) (set : A -> A)
  (l : list A) :
  (forall x, where_ (set x) = where_ x) ->
  db_get where_ (db_update sel set l)
  = option_map (fun x => if sel x then set x else x) (db_get where_ l).
Proof.
  intros Hkeep. unfold db_get, db_update.
  induction l as [|x l IH]; simpl; [reflexivity|].
  assert (Hx : where_ (if sel x then set x else x) = where_ x)
    by (destruct (sel x); [apply Hkeep | reflexivity]).
  rewrite Hx. destruct (where_ x); [reflexivity | exact IH].
Qed.

(** The leaderboard reads nothing of is_active: whatever value the
    flag of whichever exam is given, the response is the same. *)
Lemma leaderboard_blind_to_is_active
  (db : database) (id v : Z) (examCode : string) :
  leaderboard
    (with_exams db (db_update (exam_with_id id) (set_is_active v) (exams db)))
    examCode
  = leaderboard db examCode.
Proof.
  unfold leaderboard. simpl.
  rewrite db_get_update by reflexivity.
  destruct (db_get _ (exams db)) as [exam|]; simpl; [|reflexivity].
  destruct (exam_with_id id exam); reflexivity.
Qed.

(** In particular the operator's toggle of an exam's is_active flag
    does not change what the leaderboard answers. *)
Lemma leaderboard_after_toggle_active
  (db : database) (id : Z) (examCode : string) :
  leaderboard (toggle_active db id) examCode = leaderboard db examCode.
Proof.
  unfold toggle_active.
  destruct (db_get (exam_with_id id) (exams db)); [|reflexivity].
  apply leaderboard_blind_to_is_active.
Qed.

(** C10.  The leaderboard does not look at is_active.  For an exam that
    has been deactivated (is_active = 0) and whose result mode permits the
    leaderboard, the leaderboard is still served, to any requester, with
    the ranked submitted sessions, while a well-formed request to start a
    session on the same exam code is rejected with ExamNotFound and
    changes nothing. *)
Theorem leaderboard_ignores_is_active
  (db : database) (examCode : string) (exam : Exam.t)
  (sess : session) (name email uuid : string) (now : datetime) :
  exam_code_unique db ->
  db_get (exam_with_code (JS.toUpperCase examCode)) (exams db) = Some exam ->
  Exam.result_mode exam = "public"%string
  \/ (Exam.result_mode exam = "after_publish"%string
      /\ Exam.results_published exam <> 0) ->
  Exam.is_active exam = 0 ->
  name <> EmptyString ->
  examCode <> EmptyString ->
  JS.emailRegex_test email = true ->
  leaderboard db examCode
  = LeaderboardOk (Exam.title exam)
      (map_index entry_of 0
         (ORDER_BY (db_all (submitted_for (Exam.id exam)) (candidates db))))
  /\ start db sess
       {| StartReq.name := name;
          StartReq.email := email;
          StartReq.exam_code := examCode |} uuid now
     = (db, sess, ExamNotFound).
Proof.
  intros Huniq Hget Hmode Hoff Hname Hcode Hre. split.
  - unfold leaderboard. rewrite Hget.
    apply leaderboard_closed_false in Hmode. now rewrite Hmode.
  - unfold start. simpl.
    rewrite (truthy_string_nonempty _ Hname),
      (truthy_string_nonempty _ Hcode), (emailRegex_nonempty _ Hre), Hre.
    simpl.
    rewrite db_get_all_false; [reflexivity|].
    intros e Hin. unfold active_exam_with_code.
    destruct (String.eqb (Exam.exam_code e) (JS.toUpperCase examCode))
      eqn:Hsame; [|reflexivity].
    simpl. apply String.eqb_eq in Hsame.
    destruct (db_get_selected _ _ _ Hget) as [Hexam Hsel].
    unfold exam_with_code in Hsel. apply String.eqb_eq in Hsel.
    assert (e = exam)
      by (apply (exam_code_names_one db); congruence).
    subst e. rewrite Hoff. reflexivity.
Qed.

(** ** The store under the exam routes *)

Lemma le_fold_max (ids : list Z) (i : Z) :
  In i ids -> i <= fold_right Z.max 0 ids.
Proof.
  induction ids as [|j ids IH]; simpl; [intros []|].
  intros [-> | Hin]; [lia|]. specialize (IH Hin). lia.
Qed.

(** The rowid of a new row is not one of the table. *)
Lemma next_rowid_fresh (seq : Z) (ids : list Z) :
  ~ In (next_rowid seq ids) ids.
Proof.
  unfold next_rowid. intros Hin. apply le_fold_max in Hin. lia.
Qed.

(** [POST /start] leaves the store as it was or adds one unsubmitted
    session row under a fresh id. *)
Lemma start_store db sess body uuid now :
  let db' := fst (fst (start db sess body uuid now)) in
  db' = db
  \/ exists c,
       db' = {| exams := exams db;
                questions := questions db;
                candidates := candidates db ++ [c];
                responses := responses db;
                seq_candidates := Candidate.id c;
                seq_responses := seq_responses db |}
       /\ Candidate.is_submitted c = 0
       /\ ~ In (Candidate.id c) (map Candidate.id (candidates db)).
Proof.
  unfold start.
  destruct (_ || _ || _); simpl; auto.
  destruct (negb _); simpl; auto.
  destruct (db_get _ (exams db)) as [exam|]; simpl; auto.
  destruct (existingCandidate _ _ _); simpl; auto.
  destruct (db_get _ (candidates db)) as [ongoing|]; simpl; auto.
  destruct (insert_candidate _ _ _ _ _ _ _) as [db'|] eqn:Hins; simpl; auto.
  unfold insert_candidate in Hins.
  destruct (existsb _ _); [discriminate|]. injection Hins as <-.
  match goal with
  | |- context [db_get ?p ?l] => destruct (db_get p l)
  end; simpl; right;
    match goal with
    | |- context [candidates db ++ [?c]] => exists c
    end; simpl;
    (split; [reflexivity | split; [reflexivity | apply next_rowid_fresh]]).
Qed.

(** [POST /answer] leaves the store as it was or saves a response of an
    unsubmitted session. *)
Lemma answer_store db sess body now :
  let db' := fst (answer db sess body now) in
  db' = db
  \/ exists cid candidate selected correct marks,
       db_get (unsubmitted_with_id cid) (candidates db) = Some candidate
       /\ db' = save_response db cid (AnswerReq.questionId body)
                  selected correct marks now.
Proof.
  unfold answer.
  destruct (session_candidate sess) as [cid|]; simpl; auto.
  destruct (db_get _ (candidates db)) as [candidate|] eqn:Hc; simpl; auto.
  destruct (db_get _ (questions db)) as [question|]; simpl; auto.
  destruct (marksObtained _ _ _) as [marks|]; simpl; auto.
  right. exists cid, candidate. eauto.
Qed.

(** Saving a response of one session leaves the responses of every
    other session as they were. *)
Lemma save_response_other_session db cid qid sel correct marks now i :
  i <> cid ->
  responses_of_session (save_response db cid qid sel correct marks now) i
  = responses_of_session db i.
Proof.
  intros Hne. unfold responses_of_session, save_response.
  destruct (db_get _ _); simpl.
  - unfold db_update.
    induction (responses db) as [|r rs IH]; simpl; [reflexivity|].
    destruct (response_of cid qid r) eqn:Hr; simpl.
    + apply response_of_key in Hr. injection Hr as Hc _.
      rewrite Hc. apply Z.eqb_neq in Hne. rewrite Z.eqb_sym, Hne. exact IH.
    + rewrite IH. reflexivity.
  - rewrite filter_app. simpl.
    apply Z.eqb_neq in Hne. rewrite Z.eqb_sym, Hne. apply app_nil_r.
Qed.

(** Under a primary key, two rows with one id are one row. *)
Lemma candidate_id_names_one (l : list Candidate.t) (c1 c2 : Candidate.t) :
  NoDup (map Candidate.id l) -> In c1 l -> In c2 l ->
  Candidate.id c1 = Candidate.id c2 -> c1 = c2.
Proof.
  induction l as [|c l IH]; simpl; [intros _ []|].
  intros Hnd H1 H2 Hid. apply NoDup_cons_iff in Hnd.
  destruct Hnd as [Hnotin Hnd].
  destruct H1 as [-> | H1], H2 as [-> | H2]; auto.
  - exfalso. apply Hnotin. rewrite Hid. now apply in_map.
  - exfalso. apply Hnotin. rewrite <- Hid. now apply in_map.
Qed.

Lemma start_consistent db sess body uuid now :
  consistent db -> consistent (fst (fst (start db sess body uuid now))).
Proof.
  intros (Hpk & Hidx & Hscores).
  destruct (start_store db sess body uuid now) as [-> | (c & -> & Hsub & Hfresh)].
  - repeat split; assumption.
  - split; [|split].
    + simpl. rewrite map_app. simpl.
      apply NoDup_app; [exact Hpk | repeat constructor; intros [] |].
      intros i Hi [<- | []]. contradiction.
    + exact Hidx.
    + intros c' Hin Hdone. simpl in Hin. apply in_app_or in Hin.
      destruct Hin as [Hin | [<- | []]].
      * exact (Hscores c' Hin Hdone).
      * contradiction.
Qed.

Lemma answer_consistent db sess body now :
  consistent db -> consistent (fst (answer db sess body now)).
Proof.
  intros (Hpk & Hidx & Hscores).
  destruct (answer_store db sess body now)
    as [-> | (cid & candidate & sel & correct & marks & Hget & ->)].
  - repeat split; assumption.
  - destruct (save_response_frame db cid (AnswerReq.questionId body) sel
                correct marks now) as (_ & _ & Hcands & _).
    split; [|split].
    + now rewrite Hcands.
    + now apply save_response_keeps_index.
    + intros c Hin Hdone. rewrite Hcands in Hin.
      destruct (Hscores c Hin Hdone) as (s & Hs & Hval).
      exists s. split; [exact Hs|].
      unfold marks_sum. rewrite save_response_other_session; [exact Hval|].
      intros Hsame.
      destruct (db_get_selected _ _ _ Hget) as [Hcin Hsel].
      unfold unsubmitted_with_id in Hsel. apply andb_true_iff in Hsel.
      destruct Hsel as [Hid Hopen].
      apply Z.eqb_eq in Hid. apply Z.eqb_eq in Hopen.
      assert (c = candidate)
        by (apply (candidate_id_names_one _ _ _ Hpk Hin Hcin); congruence).
      subst c. contradiction.
Qed.

Lemma marks_sum_with_candidates db cs i :
  marks_sum (with_candidates db cs) i = marks_sum db i.
Proof. reflexivity. Qed.

Lemma submit_consistent db sess now :
  consistent db -> consistent (fst (fst (submit db sess now))).
Proof.
  intros (Hpk & Hidx & Hscores). unfold submit.
  destruct (session_candidate sess) as [cid|]; simpl;
    [|repeat split; assumption].
  destruct (db_get _ _); simpl; [|repeat split; assumption].
  split; [|split].
  - simpl. rewrite map_db_update; [exact Hpk | reflexivity].
  - exact Hidx.
  - intros c Hin Hdone. simpl in Hin.
    apply in_db_update in Hin. destruct Hin as (c0 & Hin0 & ->).
    destruct (Candidate.id c0 =? cid) eqn:Hc0; simpl.
    + eexists. split; [reflexivity|].
      rewrite marks_sum_with_candidates.
      apply Z.eqb_eq in Hc0. simpl. rewrite Hc0. apply score_formula.
    + rewrite marks_sum_with_candidates. exact (Hscores c0 Hin0 Hdone).
Qed.

Lemma serve_consistent db req : consistent db -> consistent (serve db req).
Proof.
  destruct req; simpl.
  - apply start_consistent.
  - apply answer_consistent.
  - apply submit_consistent.
Qed.

(** From a store without sessions or responses, whatever requests the
    exam routes serve, every submitted session has
    score = max(0, sum of the marks of its responses), session ids stay
    distinct and no (session, question) pair has two response rows. *)
Theorem exam_routes_keep_consistent (db : database) (reqs : list request) :
  candidates db = [] -> responses db = [] ->
  consistent (run db reqs).
Proof.
  intros Hc Hr.
  assert (Hinit : consistent db).
  { unfold consistent, idx_responses_unique, scores_settled.
    rewrite Hc, Hr. simpl.
    split; [constructor|]. split; [constructor|]. intros c []. }
  clear Hc Hr. revert db Hinit. unfold run.
  induction reqs as [|req reqs IH]; intros db Hinit; simpl; [exact Hinit|].
  apply IH, serve_consistent, Hinit.
Qed.

(** ** The properties at work on the sample database *)


Lemma answer_marks_witness :
  stored_marks
    (fst (answer Sample.db1 Sample.ann_session
            {| AnswerReq.questionId := 1;
               AnswerReq.selectedOption := Some "a"%string |} 110))
    4 1 (- (1 # 2)).
Proof.
  destruct (answer_marks Sample.db1 Sample.ann_session 1 (Some "a"%string)
              110 4 Sample.ann_row Sample.question1 Sample.exam1
              eq_refl eq_refl eq_refl eq_refl) as (_ & _ & _ & Hwrong & _).
  apply (Hwrong "a"%string).
  - reflexivity.
  - discriminate.
  - discriminate.
  - reflexivity.
Defined.

Lemma reanswer_replaces_witness :
  idx_responses_unique Sample.db1
  /\ (let out :=
        answers Sample.db1 Sample.ann_session 1
          ([(Some "a"%string, 110)] ++ [(Some "c"%string, 120)]) in
      Forall (eq AnswerOk) (snd out)
      /\ map Response.marks_obtained (responses_of (fst out) 4 1)
         = [inject_Z 2]).
Proof.
  assert (Hidx : idx_responses_unique Sample.db1) by constructor.
  split; [exact Hidx|].
  destruct (reanswer_replaces Sample.db1 Sample.ann_session 1 4
              Sample.ann_row Sample.question1 Sample.exam1
              [(Some "a"%string, 110)] (Some "c"%string) 120
              Hidx eq_refl eq_refl eq_refl eq_refl)
    as (Hall & _ & rid & m & Hm & Hrows).
  split; [exact Hall|].
  etransitivity; [exact (f_equal (map Response.marks_obtained) Hrows)|].
  injection Hm as <-. reflexivity.
Defined.

Lemma start_again_resumes_witness :
  start Sample.db0 Sample.nobody Sample.ann "tok-a" 100
  = (Sample.db1, Sample.ann_session, StartOk Sample.ann_started)
  /\ start Sample.db1 Sample.nobody Sample.ann_again "tok-z" 150
     = (Sample.db1, Sample.ann_session, StartOk Sample.ann_started).
Proof.
  assert (Hfirst : start Sample.db0 Sample.nobody Sample.ann "tok-a" 100
                   = (Sample.db1, Sample.ann_session,
                      StartOk Sample.ann_started)) by reflexivity.
  split; [exact Hfirst|].
  apply (start_again_resumes _ _ _ _ _ _ _ _ Sample.nobody Sample.ann_again
           "tok-z" 150 Hfirst).
  - discriminate.
  - reflexivity.
  - reflexivity.
  - reflexivity.
Defined.

Lemma duplicate_attempt_refused_witness :
  In Sample.ann_done (candidates Sample.db3)
  /\ start Sample.db3 Sample.nobody Sample.ann_again "tok-z" 200
     = (Sample.db3, Sample.nobody, DuplicateAttempt).
Proof.
  assert (Hin : In Sample.ann_done (candidates Sample.db3))
    by (right; right; right; left; reflexivity).
  split; [exact Hin|].
  apply (duplicate_attempt_refused Sample.db3 Sample.nobody Sample.ann_again
           "tok-z" 200 Sample.exam1 Sample.ann_done).
  - discriminate.
  - discriminate.
  - reflexivity.
  - reflexivity.
  - discriminate.
  - exact Hin.
  - reflexivity.
  - reflexivity.
  - reflexivity.
Defined.

Lemma result_visibility_witness :
  db_get (joined_with_token "tok-a") (candidates_join_exams Sample.db3)
  = Some (Sample.ann_done, Sample.exam1)
  /\ result Sample.db3 "tok-a"
     = CannotView "Results will be published by the administrator".
Proof.
  assert (Hget : db_get (joined_with_token "tok-a")
                        (candidates_join_exams Sample.db3)
                 = Some (Sample.ann_done, Sample.exam1)) by reflexivity.
  split; [exact Hget|].
  destruct (result_visibility Sample.db3 "tok-a" Sample.ann_done Sample.exam1
              Hget) as [_ Hdone].
  assert (Hsub : Candidate.is_submitted Sample.ann_done <> 0) by discriminate.
  destruct (Hdone Hsub) as (_ & Hafter & _).
  destruct (Hafter eq_refl) as [_ Hhidden].
  apply Hhidden. discriminate.
Defined.

Lemma leaderboard_ranking_witness :
  exists entries,
    leaderboard Sample.db0 "q2" = LeaderboardOk "Quiz two" entries
    /\ map Entry.rank entries = [1; 2; 3].
Proof.
  destruct (leaderboard_ranking Sample.db0 "q2" Sample.exam2 eq_refl)
    as [_ Hopen].
  destruct (Hopen (or_introl eq_refl))
    as (rows & entries & Hlb & Hperm & _ & _ & Hranks).
  exists entries. split; [exact Hlb|].
  rewrite Hranks, (Permutation_length Hperm). reflexivity.
Defined.

Lemma percentage_exposed_witness :
  exists r h,
    result Sample.db4 "tok-e" = CanView r
    /\ ResultRes.percentage r = Fixed2 h
    /\ rounded_within
         (exact_percentage (ResultRes.score r) (ResultRes.totalMarks r)) h.
Proof.
  destruct (proj1 (percentage_exposed Sample.db4) "tok-e"%string
              {| ResultRes.name := "Eve";
                 ResultRes.examTitle := "Quiz two";
                 ResultRes.score := Some 23%Q;
                 ResultRes.totalMarks := 160;
                 ResultRes.percentage := Fixed2 1437 |})
    as [Hshown _]; [vm_compute; reflexivity|].
  destruct Hshown as (h & Hh & Hclose & _);
    [cbn; lia | vm_compute; discriminate |].
  eexists. exists h. split; [vm_compute; reflexivity|].
  split; [exact Hh | exact Hclose].
Defined.

Lemma leaderboard_ignores_is_active_witness :
  Exam.is_active Sample.exam2 = 0
  /\ (exists entries,
        leaderboard Sample.db0 "q2" = LeaderboardOk "Quiz two" entries
        /\ map Entry.name entries = ["Di"; "Cy"; "Bo"]%string)
  /\ start Sample.db0 Sample.nobody
       {| StartReq.name := "Eve";
          StartReq.email := "eve@example.com";
          StartReq.exam_code := "q2" |} "tok-e" 300
     = (Sample.db0, Sample.nobody, ExamNotFound).
Proof.
  assert (Huniq : exam_code_unique Sample.db0).
  { unfold exam_code_unique. simpl.
    repeat constructor; simpl; intuition discriminate. }
  assert (Hname : "Eve"%string <> EmptyString) by discriminate.
  assert (Hcode : "q2"%string <> EmptyString) by discriminate.
  destruct (leaderboard_ignores_is_active Sample.db0 "q2" Sample.exam2
              Sample.nobody "Eve" "eve@example.com" "tok-e" 300
              Huniq eq_refl (or_introl eq_refl) eq_refl Hname Hcode eq_refl)
    as [Hlb Hstart].
  split; [reflexivity|]. split; [|exact Hstart].
  eexists. split; [exact Hlb | vm_compute; reflexivity].
Defined.
